(** * branding_guideline.py: colour extraction, ranking and recommendation

    A shallow embedding of the colour heuristics of [branding_guideline.py]
    ([extract_colors], [expand_color_shorthand], [get_top_colors],
    [extract_button_colors], [recommend_contrasting_color],
    [recommend_button_color]) and the properties of them that the
    specification states.

    Conventions of the embedding:
    - a Python [str] is a [string]; a character is a code point below 256
      and the character classes of [re] ([\w], [\s], [\b]), [str.lower] and
      [int(_, 16)] are the ones Python 3 has on that range;
    - a Python [float] is a binary64 [float] of the kernel, with the same
      operations in the same order as the source;
    - a raised exception is the [Raise] case of [result];
    - the iteration order of a Python [set], which the language does not fix,
      is an instance of the class [PySet];
    - the calls of [print] only write to the console and are left out. *)

From Stdlib Require Import ZArith NArith List String Ascii Bool Lia Floats Uint63.
From stdpp Require Import base list strings gmap sorting.
Import ListNotations.

Set Warnings "-inexact-float".

Local Open Scope string_scope.
Local Open Scope list_scope.

(** ** Characters *)

Module Chars.

Definition code (c : ascii) : N := N_of_ascii c.

Definition between (lo hi : N) (c : ascii) : bool :=
  ((lo <=? code c) && (code c <=? hi))%N.

(** The class [[0-9a-fA-F]]. *)
Definition is_hex (c : ascii) : bool :=
  between 48 57 c || between 97 102 c || between 65 70 c.

(** [\w] on a [str] pattern: alphanumeric code points and the underscore. *)
Definition is_word (c : ascii) : bool :=
  between 48 57 c || between 65 90 c || between 95 95 c || between 97 122 c
  || between 170 170 c || between 178 179 c || between 181 181 c
  || between 185 186 c || between 188 190 c || between 192 214 c
  || between 216 246 c || between 248 255 c.

(** [\s] on a [str] pattern, which is also [str.isspace]. *)
Definition is_space (c : ascii) : bool :=
  between 9 13 c || between 28 32 c || between 133 133 c || between 160 160 c.

(** [str.lower] on one character. *)
Definition lower_char (c : ascii) : ascii :=
  if between 65 90 c || between 192 214 c || between 216 222 c
  then ascii_of_N (code c + 32)
  else c.

(** The value of a hexadecimal digit. *)
Definition hex_value (c : ascii) : Z :=
  if between 48 57 c then Z.of_N (code c) - 48
  else if between 97 102 c then Z.of_N (code c) - 87
  else Z.of_N (code c) - 55.

End Chars.
Import Chars.

(** [str.lower]. *)
Definition lower (s : string) : string :=
  string_of_list_ascii (map lower_char (list_ascii_of_string s)).

(** ** The two regular expressions

    [re.findall] scans the text from the left; at each position it tries the
    pattern, and after a match it goes on from the end of the match.  Both
    patterns of the source consume at least one character. *)

Module Re.

Definition chars := list ascii.

(** [n] characters of the class [[0-9a-fA-F]], and what follows them. *)
Fixpoint take_hex (n : nat) (s : chars) : option (chars * chars) :=
  match n with
  | O => Some ([], s)
  | S n' =>
      match s with
      | c :: s' =>
          if is_hex c then
            match take_hex n' s' with
            | Some (h, r) => Some (c :: h, r)
            | None => None
            end
          else None
      | [] => None
      end
  end.

(** [\b] after a hexadecimal digit (a word character): the end of the text
    or a character that is not a word character. *)
Definition boundary_after (rest : chars) : bool :=
  match rest with
  | [] => true
  | c :: _ => negb (is_word c)
  end.

(** The pattern [#(?:[0-9a-fA-F]{3}){1,2}\b] tried at the head of [s]: the
    greedy repetition first takes two groups and falls back to one. *)
Definition color_match (s : chars) : option chars :=
  match s with
  | "#"%char :: s1 =>
      match take_hex 3 s1 with
      | Some (h1, s2) =>
          let one := if boundary_after s2 then Some ("#"%char :: h1) else None in
          match take_hex 3 s2 with
          | Some (h2, s3) =>
              if boundary_after s3 then Some ("#"%char :: h1 ++ h2) else one
          | None => one
          end
      | None => None
      end
  | _ => None
  end.

(** The literal [kw] (lowercase letters) under [re.IGNORECASE]. *)
Fixpoint match_ci (kw s : chars) : option (chars * chars) :=
  match kw with
  | [] => Some ([], s)
  | k :: kw' =>
      match s with
      | c :: s' =>
          if Ascii.eqb (lower_char c) k then
            match match_ci kw' s' with
            | Some (m, r) => Some (c :: m, r)
            | None => None
            end
          else None
      | [] => None
      end
  end.

(** The longest prefix whose characters satisfy [p], and the rest. *)
Fixpoint span (p : ascii -> bool) (s : chars) : chars * chars :=
  match s with
  | c :: s' =>
      if p c then let '(a, r) := span p s' in (c :: a, r) else ([], s)
  | [] => ([], [])
  end.

Definition not_rbrace (c : ascii) : bool := negb (Ascii.eqb c "}"%char).

(** The pattern [button\s*{[^}]*}] with [re.IGNORECASE] tried at the head
    of [s]. *)
Definition button_match (s : chars) : option chars :=
  match match_ci (list_ascii_of_string "button") s with
  | Some (kw, r1) =>
      let '(ws, r2) := span is_space r1 in
      match r2 with
      | "{"%char :: r3 =>
          let '(body, r4) := span not_rbrace r3 in
          match r4 with
          | "}"%char :: _ => Some (kw ++ ws ++ "{"%char :: body ++ ["}"%char])
          | _ => None
          end
      | _ => None
      end
  | None => None
  end.

(** The scan of [re.findall] with the pattern [m]; [skip] counts the
    characters of the last match that are still to be passed. *)
Fixpoint scan (m : chars -> option chars) (skip : nat) (s : chars) : list chars :=
  match s with
  | [] => []
  | _ :: s' =>
      match skip with
      | S k => scan m k s'
      | O =>
          match m s with
          | Some tok => tok :: scan m (length tok - 1) s'
          | None => scan m 0 s'
          end
      end
  end.

Definition findall (m : chars -> option chars) (text : string) : list string :=
  map string_of_list_ascii (scan m 0 (list_ascii_of_string text)).

End Re.

(** [re.findall(r'#(?:[0-9a-fA-F]{3}){1,2}\b', text)]. *)
Definition findall_colors (text : string) : list string :=
  Re.findall Re.color_match text.

(** [re.findall(r'button\s*{[^}]*}', text, re.IGNORECASE)]. *)
Definition findall_button_styles (text : string) : list string :=
  Re.findall Re.button_match text.

(** ** Colour extractor *)

(** [expand_color_shorthand]: a colour that starts with the marker and has
    length 4 gets each digit doubled; any other string is returned as it is. *)
Definition expand_color_shorthand (color : string) : string :=
  match color with
  | String "#" (String c1 (String c2 (String c3 EmptyString))) =>
      String "#" (String c1 (String c1 (String c2 (String c2
        (String c3 (String c3 EmptyString))))))
  | _ => color
  end.

Definition extract_colors (css_content : string) : list string :=
  map expand_color_shorthand (findall_colors css_content).

(** ** Colour ranker *)

(** The filter of [get_top_colors]: [color.lower()] is one of the four
    spellings of pure white and pure black. *)
Definition filtered_colors : list string := ["#fff"; "#ffffff"; "#000"; "#000000"].

Definition is_filtered (color : string) : bool :=
  existsb (String.eqb (lower color)) filtered_colors.

(** [collections.Counter]: a dict, so the keys are kept in the order in which
    they were first seen. *)
Fixpoint counter_add (c : string) (t : list (string * nat)) : list (string * nat) :=
  match t with
  | [] => [(c, 1)]
  | (k, n) :: t' =>
      if String.eqb k c then (k, S n) :: t' else (k, n) :: counter_add c t'
  end.

Definition Counter (l : list string) : list (string * nat) :=
  fold_left (fun t c => counter_add c t) l [].

(** [sorted(items, key=count, reverse=True)]: the sort is stable, so among
    equal counts the entry seen first stays first. *)
Fixpoint insert_desc (x : string * nat) (l : list (string * nat)) : list (string * nat) :=
  match l with
  | [] => [x]
  | y :: l' => if (snd x <? snd y)%nat then y :: insert_desc x l' else x :: l
  end.

Definition sorted_desc (l : list (string * nat)) : list (string * nat) :=
  fold_right insert_desc [] l.

(** [Counter.most_common(n)] is [heapq.nlargest(n, items, key=count)], the
    first [n] entries of the descending stable sort; none when [n <= 0]. *)
Definition most_common (n : Z) (t : list (string * nat)) : list (string * nat) :=
  take (Z.to_nat n) (sorted_desc t).

Definition get_top_colors (colors : list string) (num_colors : Z) : list string :=
  let colors := List.filter (fun color => negb (is_filtered color)) colors in
  let color_counter := Counter colors in
  let top_colors := most_common num_colors color_counter in
  map fst top_colors.

(** ** Sets

    [set(xs)] holds each element of [xs] once; the order in which a set is
    iterated is not fixed by the language (it follows the hashes of the
    strings), so it is a parameter. *)
Class PySet := {
  set_iter : list string -> list string;
  set_iter_NoDup : forall l, NoDup (set_iter l);
  set_iter_elem : forall l x, x ∈ set_iter l <-> x ∈ l
}.

(** One iteration order: every element at the place of its last occurrence. *)
Definition last_seen : PySet :=
  {| set_iter := remove_dups;
     set_iter_NoDup := NoDup_remove_dups;
     set_iter_elem := fun l x => elem_of_remove_dups l x |}.

(** ** Button colour extractor

    [styles] is the list of the values [button.get('style', '')] of the
    elements that BeautifulSoup's [find_all(['button', 'a', 'input'])] yields
    for the HTML text, in document order. *)

(** The list [button_colors] before the duplicates are removed. *)
Definition button_color_tokens (styles css_contents : list string) : list string :=
  flat_map findall_colors styles
  ++ flat_map (fun css_content =>
                 flat_map findall_colors (findall_button_styles css_content))
       css_contents.

Definition extract_button_colors `{PySet} (styles css_contents : list string) : list string :=
  take 4 (set_iter (map expand_color_shorthand (button_color_tokens styles css_contents))).

(** ** Exceptions *)

Inductive exn : Set := IndexError | ValueError.

Inductive result (A : Type) : Type :=
| Ok (a : A)
| Raise (e : exn).
Arguments Ok {A} a.
Arguments Raise {A} e.

Definition bind {A B : Type} (r : result A) (k : A -> result B) : result B :=
  match r with
  | Ok a => k a
  | Raise e => Raise e
  end.

Notation "'let*' x ':=' r 'in' k" := (bind r (fun x => k))
  (at level 10, x name, r at level 100, k at level 200).

(** A list comprehension whose element expression can raise. *)
Fixpoint map_result {A B : Type} (f : A -> result B) (l : list A) : result (list B) :=
  match l with
  | [] => Ok []
  | a :: l' => let* b := f a in let* bs := map_result f l' in Ok (b :: bs)
  end.

(** A [for] loop whose body can raise. *)
Fixpoint for_each {A S : Type} (body : S -> A -> result S) (l : list A) (st : S) : result S :=
  match l with
  | [] => Ok st
  | a :: l' => let* st' := body st a in for_each body l' st'
  end.

(** ** Contrast recommender *)

(** What is left of [s] after its leading characters that satisfy [p]. *)
Fixpoint drop_while (p : ascii -> bool) (s : list ascii) : list ascii :=
  match s with
  | c :: s' => if p c then drop_while p s' else s
  | [] => []
  end.

Module Int16.

(** The value of a run of hexadecimal digits, [acc] being the value read
    so far; [None] when a character is not a digit. *)
Fixpoint digits (acc : Z) (s : list ascii) : option Z :=
  match s with
  | [] => Some acc
  | c :: s' => if is_hex c then digits (16 * acc + hex_value c) s' else None
  end.

Definition unsigned (s : list ascii) : option Z :=
  match s with
  | [] => None
  | _ => digits 0 s
  end.

(** The blanks that [int] drops around a literal. *)
Definition is_blank (c : ascii) : bool :=
  between 9 13 c || between 32 32 c || between 133 133 c || between 160 160 c.

Definition strip (s : list ascii) : list ascii :=
  rev (drop_while is_blank (rev (drop_while is_blank s))).

(** [int(s, 16)] for a slice [s] of at most two characters: blanks around
    the literal are dropped, a sign may come first, and what remains must
    be hexadecimal digits, at least one.  (The other literals that [int]
    reads, with a [0x] prefix or an underscore between digits, have three
    characters or more.) *)
Definition int16 (s : list ascii) : result Z :=
  let parsed :=
    match strip s with
    | "-"%char :: d => option_map Z.opp (unsigned d)
    | "+"%char :: d => unsigned d
    | d => unsigned d
    end in
  match parsed with
  | Some z => Ok z
  | None => Raise ValueError
  end.

End Int16.

Definition rgb : Type := Z * Z * Z.

Definition is_hash (c : ascii) : bool := Ascii.eqb c "#"%char.

(** [hex_to_rgb]: [lstrip('#')], then [int(hex_color[i:i+2], 16)] for [i] in
    [(0, 2, 4)]. *)
Definition hex_to_rgb (hex_color : string) : result rgb :=
  let hex_color := drop_while is_hash (list_ascii_of_string hex_color) in
  let* r := Int16.int16 (take 2 hex_color) in
  let* g := Int16.int16 (take 2 (drop 2 hex_color)) in
  let* b := Int16.int16 (take 2 (drop 4 hex_color)) in
  Ok (r, g, b).

(** The [float] of a Python [int] (exact on the range of a channel). *)
Definition float_of_Z (z : Z) : float :=
  if (z <? 0)%Z then PrimFloat.opp (PrimFloat.of_uint63 (Uint63.of_Z (- z)))
  else PrimFloat.of_uint63 (Uint63.of_Z z).

Definition relative_luminance (rgb_color : rgb) : float :=
  let '(r, g, b) := rgb_color in
  (0.2126 * float_of_Z r + 0.7152 * float_of_Z g + 0.0722 * float_of_Z b)%float.

(** [sorted(l, key=key)]: ascending and stable; the keys are compared with
    [<] only. *)
Fixpoint insert_by {A : Type} (key : A -> float) (x : A) (l : list A) : list A :=
  match l with
  | [] => [x]
  | y :: l' => if PrimFloat.ltb (key y) (key x) then y :: insert_by key x l' else x :: l
  end.

Definition sorted {A : Type} (key : A -> float) (l : list A) : list A :=
  fold_right (insert_by key) [] l.

(** [l[0]]. *)
Definition index0 {A : Type} (l : list A) : result A :=
  match l with
  | x :: _ => Ok x
  | [] => Raise IndexError
  end.

(** The colours of the rainbow, in the order of the dict literal. *)
Definition rainbow_colors : list (string * string) :=
  [ ("Violet", "#8a2be2"); ("Indigo", "#4b0082"); ("Blue", "#0000ff");
    ("Green", "#00ff00"); ("Yellow", "#ffff00"); ("Orange", "#ffa500");
    ("Red", "#ff0000") ].

Definition white : rgb := (255, 255, 255)%Z.
Definition black : rgb := (0, 0, 0)%Z.

Definition vibrant (color_name : string) : string :=
  color_name +:+ " is a vibrant color that contrasts well with the website's primary colors.".
Definition white_reason : string :=
  "White is a classic choice that ensures high contrast and readability.".
Definition black_reason : string :=
  "Black is a versatile choice that enhances readability and visual appeal.".
Definition default_color : string := "#28a745".
Definition default_reason : string := "Default choice for contrast".

(** The variables [contrast_color] and [reasons] of the function. *)
Record selection : Type := Selection {
  contrast_color : option string;
  reasons : gmap string string
}.

Definition no_selection : selection := Selection None ∅.

Definition select (color_code reason : string) (st : selection) : selection :=
  Selection (Some color_code) (<[color_code := reason]> (reasons st)).

(** The darkest input colour: the head of the input sorted by luminance. *)
Definition darkest (existing_colors : list string) : result rgb :=
  let* rgb_colors := map_result hex_to_rgb existing_colors in
  let sorted_colors := sorted relative_luminance rgb_colors in
  index0 sorted_colors.

(** The body of the loop over [rainbow_colors.items()]. *)
Definition rainbow_step (darkest_color : rgb) (st : selection) (item : string * string)
  : result selection :=
  let '(color_name, color_code) := item in
  let* rgb_color := hex_to_rgb color_code in
  let luminance_diff :=
    PrimFloat.abs (relative_luminance darkest_color - relative_luminance rgb_color) in
  if PrimFloat.ltb 0.5 luminance_diff
  then Ok (select color_code (vibrant color_name) st)
  else Ok st.

Definition rainbow_pass (darkest_color : rgb) : result selection :=
  for_each (rainbow_step darkest_color) rainbow_colors no_selection.

(** The [if]/[elif] on white and black that follows the loop. *)
Definition white_black_check (darkest_color : rgb) (st : selection) : selection :=
  if PrimFloat.ltb 0.5
       (PrimFloat.abs (relative_luminance darkest_color - relative_luminance white))
  then select "#ffffff" white_reason st
  else if PrimFloat.ltb 0.5
       (PrimFloat.abs (relative_luminance darkest_color - relative_luminance black))
  then select "#000000" black_reason st
  else st.

(** [if not contrast_color]: [None] and the empty string are false. *)
Definition falsy (c : option string) : bool :=
  match c with
  | None => true
  | Some s => String.eqb s ""
  end.

(** The last lines: the default, and the pair that is returned. *)
Definition conclude (st : selection) : string * string :=
  let contrast_color :=
    if falsy (contrast_color st) then default_color
    else default default_color (contrast_color st) in
  (contrast_color, default default_reason (reasons st !! contrast_color)).

Definition recommend_contrasting_color (existing_colors : list string)
  : result (string * string) :=
  let* darkest_color := darkest existing_colors in
  let* st := rainbow_pass darkest_color in
  Ok (conclude (white_black_check darkest_color st)).

(** [recommend_button_color]: the recommender is given [set(primary_colors)];
    [button_colors] is not read. *)
Definition recommend_button_color `{PySet} (primary_colors button_colors : list string)
  : result (string * string) :=
  let existing_colors := set_iter primary_colors in
  recommend_contrasting_color existing_colors.

(** ** Notions of the specification *)

(** The marker followed by exactly six hexadecimal digits. *)
Definition full_hex (color : string) : bool :=
  match list_ascii_of_string color with
  | "#"%char :: h => (length h =? 6)%nat && forallb is_hex h
  | _ => false
  end.


(** The token [tok] lies between the braces of a piece [kw ws { ... }] of the
    stylesheet, where [kw] is the word [button] in any case and [ws] is
    blank; nothing is asked of the text before [kw]. *)
Definition in_button_block (css_content tok : string) : Prop :=
  exists pre kw ws b1 b2 post,
    list_ascii_of_string css_content
    = pre ++ kw ++ ws ++ "{"%char :: (b1 ++ list_ascii_of_string tok ++ b2) ++ "}"%char :: post
    /\ map lower_char kw = list_ascii_of_string "button"
    /\ forallb is_space ws = true
    /\ forallb Re.not_rbrace (b1 ++ list_ascii_of_string tok ++ b2) = true.

(** A stylesheet as the specification reads it: a rule block is a selector,
    the text from the end of the block before it up to the opening brace,
    and a declaration body, the text between the braces. *)
Module CssRules.

Inductive pos : Type :=
| InSelector (sel : list ascii)
| InBody (sel body : list ascii).

Fixpoint rule_blocks (p : pos) (s : list ascii) : list (list ascii * list ascii) :=
  match s with
  | [] => []
  | c :: s' =>
      match p with
      | InSelector sel =>
          if Ascii.eqb c "{"%char then rule_blocks (InBody sel []) s'
          else if Ascii.eqb c "}"%char then rule_blocks (InSelector []) s'
          else rule_blocks (InSelector (sel ++ [c])) s'
      | InBody sel body =>
          if Ascii.eqb c "}"%char then (sel, body) :: rule_blocks (InSelector []) s'
          else rule_blocks (InBody sel (body ++ [c])) s'
      end
  end.

Definition trim (s : list ascii) : list ascii :=
  rev (drop_while is_space (rev (drop_while is_space s))).

(** The selector is the tag name [button], in any case. *)
Definition selects_button_tag (sel : list ascii) : bool :=
  String.eqb (lower (string_of_list_ascii (trim sel))) "button".

(** The colour tokens inside the bodies of the rule blocks whose selector
    is the tag name [button]. *)
Definition button_rule_colors (css_content : string) : list string :=
  flat_map (fun '(sel, body) =>
              if selects_button_tag sel
              then findall_colors (string_of_list_ascii body)
              else [])
    (rule_blocks (InSelector []) (list_ascii_of_string css_content)).

End CssRules.

(** The luminances of two colours differ by more than [threshold]: the test
    [abs(relative_luminance(darkest_color) - relative_luminance(c)) > threshold]. *)
Definition differs_by_more_than (threshold : float) (darkest_color c : rgb) : bool :=
  PrimFloat.ltb threshold
    (PrimFloat.abs (relative_luminance darkest_color - relative_luminance c)).

(** The rainbow candidates that pass the test of the loop, and the last of
    them in the order of the dict. *)
Definition qualifies (darkest_color : rgb) (item : string * string) : bool :=
  match hex_to_rgb (snd item) with
  | Ok c => differs_by_more_than 0.5 darkest_color c
  | Raise _ => false
  end.

Definition last_qualifying (darkest_color : rgb) : option (string * string) :=
  last (List.filter (qualifies darkest_color) rainbow_colors).

(** ** Finite checks

    Two facts are settled by running the code on every case: the range of
    [int(_, 16)] on slices of at most two characters, and the outcome of the
    white and black tests for every colour whose channels are in that
    range. *)
Module Checks.

Definition all_ascii : list ascii := map ascii_of_nat (seq 0 256).

Definition in_channel (z : Z) : bool := ((-15 <=? z) && (z <=? 255))%Z.

Definition int16_in_channel (s : list ascii) : bool :=
  match Int16.int16 s with
  | Ok z => in_channel z
  | Raise _ => true
  end.

(** [p] on every slice of at most two characters drawn from [cs]. *)
Definition on_slices (p : list ascii -> bool) (cs : list ascii) : bool :=
  p [] && forallb (fun a => p [a] && forallb (fun b => p [a; b]) cs) cs.

(** [int(_, 16)] reads a slice of two hexadecimal digits. *)
Definition hex_pair_read (s : list ascii) : bool :=
  match s with
  | [a; b] =>
      implb (is_hex a && is_hex b)
        match Int16.int16 s with
        | Ok _ => true
        | Raise _ => false
        end
  | _ => true
  end.

Fixpoint zrange (n : nat) (lo : Z) : list Z :=
  match n with
  | O => []
  | S n' => lo :: zrange n' (lo + 1)%Z
  end.

Definition channel_values : list Z := zrange 271 (-15)%Z.

(** With [w] and [k] the luminances of white and black: below 254.5 the
    white test passes; from 254.5 on it fails and the black test passes. *)
Definition decided (w k l : float) : bool :=
  if PrimFloat.ltb l 254.5
  then PrimFloat.ltb 0.5 (PrimFloat.abs (l - w))
  else negb (PrimFloat.ltb 0.5 (PrimFloat.abs (l - w)))
       && PrimFloat.ltb 0.5 (PrimFloat.abs (l - k)).

(** [decided] on every sum of a term of [rs], a term of [gs] and a term of
    [bs], added in the order of [relative_luminance]. *)
Definition on_sums (w k : float) (rs gs bs : list float) : bool :=
  forallb (fun r =>
    forallb (fun g =>
      forallb (fun b => decided w k (r + g + b)%float) bs) gs) rs.

Definition red_terms : list float :=
  map (fun r => 0.2126 * float_of_Z r)%float channel_values.
Definition green_terms : list float :=
  map (fun g => 0.7152 * float_of_Z g)%float channel_values.
Definition blue_terms : list float :=
  map (fun b => 0.0722 * float_of_Z b)%float channel_values.

End Checks.

(** ** The analysis inside [scrape_and_analyze]

    The lines of [scrape_and_analyze] between the fetches and the download
    of the logo.  [fetched] holds, for each linked stylesheet in order, what
    [fetch_css_content] returned, [None] after a failed request; [styles] is
    as in [extract_button_colors]. *)

(** [if css_content]: [None] and the empty text are false. *)
Definition fetched_text (css_content : option string) : bool :=
  match css_content with
  | Some text => negb (String.eqb text "")
  | None => false
  end.

(** The loop that fills [all_colors] and [css_contents]. *)
Definition collect (fetched : list (option string)) : list string * list string :=
  fold_left
    (fun '(all_colors, css_contents) css_content =>
       match css_content with
       | Some text =>
           if fetched_text css_content
           then (all_colors ++ extract_colors text, css_contents ++ [text])
           else (all_colors, css_contents)
       | None => (all_colors, css_contents)
       end)
    fetched ([], []).

Definition analyze `{PySet} (styles : list string) (fetched : list (option string))
  : result (list string * list string * (string * string)) :=
  let '(all_colors, css_contents) := collect fetched in
  let primary_colors := get_top_colors all_colors 5 in
  let button_colors := extract_button_colors styles css_contents in
  let* recommended_color := recommend_button_color primary_colors button_colors in
  Ok (primary_colors, button_colors, recommended_color).

(** ** More finite checks *)
Module HexChecks.

Definition result_eqb (x y : result Z) : bool :=
  match x, y with
  | Ok a, Ok b => (a =? b)%Z
  | Raise IndexError, Raise IndexError => true
  | Raise ValueError, Raise ValueError => true
  | _, _ => false
  end.

(** A slice of two hexadecimal digits reads as sixteen times the first plus
    the second. *)
Definition hex_pair_value (s : list ascii) : bool :=
  match s with
  | [a; b] =>
      if is_hex a && is_hex b
      then result_eqb (Int16.int16 s) (Ok (16 * hex_value a + hex_value b)%Z)
      else true
  | _ => true
  end.

End HexChecks.

(** ** Counting

    [occurrences l c] is [l.count(c)]; [by_count] is the order that the
    descending sort of [most_common] establishes. *)
Definition occurrences (l : list string) (c : string) : nat :=
  count_occ string_dec l c.

Definition by_count (x y : string * nat) : Prop := snd y <= snd x.

(** ** The order of the floats

    The comparison [<] of binary64, read through the kernel's specification
    of the floats: a float that is a number has a key, and [x < y] holds
    when both are numbers and the key of [x] is before the key of [y]. *)
Definition SFkey (x : spec_float) : option (Z * Z * Z) :=
  match x with
  | S754_nan => None
  | S754_infinity true => Some (-2, 0, 0)%Z
  | S754_infinity false => Some (2, 0, 0)%Z
  | S754_zero _ => Some (0, 0, 0)%Z
  | S754_finite true m e => Some (-1, - e, - Z.pos m)%Z
  | S754_finite false m e => Some (1, e, Z.pos m)%Z
  end.

Definition lex3 (a b : Z * Z * Z) : Prop :=
  let '(a1, a2, a3) := a in
  let '(b1, b2, b3) := b in
  (a1 < b1 \/ (a1 = b1 /\ (a2 < b2 \/ (a2 = b2 /\ a3 < b3))))%Z.

(** A float that is not NaN. *)
Definition is_num (x : float) : Prop := Prim2SF x <> S754_nan.

(** * Properties *)

(** ** Runs of the definitions *)

Example extract_colors_ex :
  extract_colors "a{color:#fff} #abcd #1234567 #abc- ##0aF #fffffg" =
  ["#ffffff"; "#aabbcc"; "#00aaFF"].
Proof. vm_compute. reflexivity. Qed.

Example findall_button_styles_ex :
  findall_button_styles "BUTTON  {a} button{x button{y} button:hover{z}" =
  ["BUTTON  {a}"; "button{x button{y}"].
Proof. vm_compute. reflexivity. Qed.

Example get_top_colors_ex :
  get_top_colors ["#aaaaaa"; "#FFF"; "#bbbbbb"; "#bbbbbb"; "#000000"; "#cccccc"; "#aaaaaa"] 2
  = ["#aaaaaa"; "#bbbbbb"].
Proof. vm_compute. reflexivity. Qed.

Example extract_button_colors_ex :
  @extract_button_colors last_seen ["color:#abc"; ""]
    ["a{color:#111} .navbutton {color:#AABBCC;x:#aabbcc}"]
  = ["#AABBCC"; "#aabbcc"].
Proof. vm_compute. reflexivity. Qed.

Example recommend_ex :
  recommend_contrasting_color ["#ffffff"; "#FEFEFE"] = Ok ("#ffffff", white_reason)
  /\ recommend_contrasting_color ["#ffffff"] = Ok ("#000000", black_reason)
  /\ recommend_contrasting_color ["#12"] = Raise ValueError
  /\ hex_to_rgb "##-f 1a" = Ok (-15, 1, 10)%Z.
Proof. vm_compute. repeat split. Qed.

Example button_rule_colors_ex :
  CssRules.button_rule_colors
    "button{color:#fff} .navbutton{color:#123456} a{x:#111}  BUTTON {x:#abc;y:#12}"
  = ["#fff"; "#abc"].
Proof. vm_compute. reflexivity. Qed.

(** ** Shape of the colour tokens *)

Section Scan.

Import Re.

Lemma take_hex_Some n s h r :
  take_hex n s = Some (h, r) ->
  s = h ++ r /\ length h = n /\ forallb is_hex h = true.
Proof.
  revert s h r; induction n as [|n IH]; intros s h r; simpl.
  - intros [= <- <-]; auto.
  - destruct s as [|c s']; [discriminate|].
    destruct (is_hex c) eqn:Hc; [|discriminate].
    destruct (take_hex n s') as [[h' r']|] eqn:Hn; [|discriminate].
    intros [= <- <-].
    destruct (IH _ _ _ Hn) as (-> & <- & Hh).
    simpl; rewrite Hc, Hh; auto.
Qed.

(** A token of the colour pattern: the marker and three or six digits, at
    the head of the text it was matched on. *)
Lemma color_match_Some s tok :
  color_match s = Some tok ->
  exists h r, tok = "#"%char :: h /\ s = tok ++ r
              /\ forallb is_hex h = true /\ (length h = 3 \/ length h = 6).
Proof.
  unfold color_match.
  destruct s as [|c s1]; [discriminate|].
  destruct (Ascii.eqb_spec c "#"%char) as [->|Hne].
  2:{ destruct c as [[] [] [] [] [] [] [] []]; try discriminate; congruence. }
  destruct (take_hex 3 s1) as [[h1 s2]|] eqn:H1; [|discriminate].
  destruct (take_hex_Some _ _ _ _ H1) as (-> & L1 & F1).
  assert (Hone : (if boundary_after s2 then Some ("#"%char :: h1) else None) = Some tok ->
                 exists h r, tok = "#"%char :: h /\ "#"%char :: h1 ++ s2 = tok ++ r
                             /\ forallb is_hex h = true /\ (length h = 3 \/ length h = 6)).
  { destruct (boundary_after s2); [|discriminate].
    intros [= <-]. exists h1, s2. auto. }
  destruct (take_hex 3 s2) as [[h2 s3]|] eqn:H2; [|exact Hone].
  destruct (take_hex_Some _ _ _ _ H2) as (-> & L2 & F2).
  destruct (boundary_after s3); [|exact Hone].
  intros [= <-]. exists (h1 ++ h2), s3. repeat split.
  - simpl. now rewrite <- app_assoc.
  - rewrite forallb_app, F1, F2. reflexivity.
  - right. rewrite length_app. lia.
Qed.

(** Every element of a scan is a match of the pattern at some position. *)
Lemma scan_elem m k s tok :
  In tok (scan m k s) -> exists a s', s = a ++ s' /\ m s' = Some tok.
Proof.
  revert k; induction s as [|c s IH]; intros k; simpl; [tauto|].
  assert (Hrec : forall k', In tok (scan m k' s) ->
                   exists a s', c :: s = a ++ s' /\ m s' = Some tok).
  { intros k' Hin. destruct (IH _ Hin) as (a & s' & -> & Hm).
    exists (c :: a), s'. auto. }
  destruct k as [|k]; [|apply Hrec].
  destruct (m (c :: s)) as [t|] eqn:Hm; [|apply Hrec].
  intros [<-|Hin]; [|eapply Hrec; eauto].
  exists [], (c :: s). auto.
Qed.

(** A prefix without the marker adds no colour token. *)
Lemma scan_color_prefix p s :
  forallb (fun c => negb (is_hash c)) p = true ->
  scan color_match 0 (p ++ s) = scan color_match 0 s.
Proof.
  induction p as [|c p IH]; simpl; [reflexivity|].
  intros [Hc Hp]%andb_true_iff.
  rewrite <- (IH Hp).
  destruct c as [[] [] [] [] [] [] [] []]; try reflexivity; discriminate.
Qed.

End Scan.

Lemma findall_colors_token text c :
  In c (findall_colors text) ->
  exists h, c = string_of_list_ascii ("#"%char :: h)
            /\ forallb is_hex h = true /\ (length h = 3 \/ length h = 6).
Proof.
  unfold findall_colors, Re.findall.
  intros (tok & <- & Hin)%in_map_iff.
  destruct (scan_elem _ _ _ _ Hin) as (a & s' & _ & Hm).
  destruct (color_match_Some _ _ Hm) as (h & r & -> & _ & Hh & Hl).
  eauto.
Qed.

Lemma expand_token_full_hex h :
  forallb is_hex h = true -> length h = 3 \/ length h = 6 ->
  full_hex (expand_color_shorthand (string_of_list_ascii ("#"%char :: h))) = true.
Proof.
  intros Hh [Hl|Hl].
  - destruct h as [|a [|b [|c [|? ?]]]]; try discriminate.
    simpl in Hh. apply andb_true_iff in Hh as [Ha Hh].
    apply andb_true_iff in Hh as [Hb Hh]. apply andb_true_iff in Hh as [Hc _].
    unfold full_hex; simpl. now rewrite Ha, Hb, Hc.
  - destruct h as [|a [|b [|c [|d [|e [|f [|? ?]]]]]]]; try discriminate.
    unfold full_hex; simpl. simpl in Hh. exact Hh.
Qed.

Lemma expand_found_full_hex text c :
  In c (findall_colors text) -> full_hex (expand_color_shorthand c) = true.
Proof.
  intros (h & -> & Hh & Hl)%findall_colors_token.
  now apply expand_token_full_hex.
Qed.

Lemma extract_colors_full_hex css c :
  In c (extract_colors css) -> full_hex c = true.
Proof.
  unfold extract_colors. intros (t & <- & Hin)%in_map_iff.
  eapply expand_found_full_hex; eauto.
Qed.

(** ** The ranker *)

Section Ranker.

Implicit Types (t : list (string * nat)) (c k : string).

Lemma counter_add_keys_elem c t k :
  In k (map fst (counter_add c t)) <-> k = c \/ In k (map fst t).
Proof.
  induction t as [|[k' n] t IH]; simpl.
  - intuition.
  - destruct (String.eqb_spec k' c) as [->|Hne]; simpl; [intuition|].
    rewrite IH. intuition.
Qed.

Lemma counter_add_keys_NoDup c t :
  NoDup (map fst t) -> NoDup (map fst (counter_add c t)).
Proof.
  induction t as [|[k' n] t IH]; simpl; intros Hnd.
  - repeat constructor. intros []%elem_of_nil.
  - destruct (String.eqb_spec k' c) as [->|Hne]; simpl; [exact Hnd|].
    apply NoDup_cons in Hnd as [Hk Hnd].
    apply NoDup_cons. split; [|auto].
    rewrite list_elem_of_In, counter_add_keys_elem.
    rewrite list_elem_of_In in Hk. intuition.
Qed.

Lemma Counter_from_keys (l : list string) t :
  NoDup (map fst t) ->
  let t' := fold_left (fun t c => counter_add c t) l t in
  NoDup (map fst t') /\ forall k, In k (map fst t') -> In k l \/ In k (map fst t).
Proof.
  revert t; induction l as [|c l IH]; simpl; intros t Hnd; [auto|].
  destruct (IH (counter_add c t) (counter_add_keys_NoDup c t Hnd)) as [Hnd' Hin].
  split; [exact Hnd'|].
  intros k Hk. destruct (Hin k Hk) as [?|Hk']; [auto|].
  apply counter_add_keys_elem in Hk' as [->|?]; auto.
Qed.

(** The keys of a [Counter] are distinct and come from the counted list. *)
Lemma Counter_keys (l : list string) :
  NoDup (map fst (Counter l)) /\ forall k, In k (map fst (Counter l)) -> In k l.
Proof.
  destruct (Counter_from_keys l [] (NoDup_nil_2)) as [Hnd Hin].
  split; [exact Hnd|].
  intros k Hk. destruct (Hin k Hk) as [?|[]]; assumption.
Qed.

Lemma insert_desc_Permutation x t : insert_desc x t ≡ₚ x :: t.
Proof.
  induction t as [|y t IH]; simpl; [reflexivity|].
  destruct (snd x <? snd y)%nat; [|reflexivity].
  rewrite IH. apply Permutation_swap.
Qed.

Lemma sorted_desc_Permutation t : sorted_desc t ≡ₚ t.
Proof.
  induction t as [|x t IH]; simpl; [reflexivity|].
  now rewrite insert_desc_Permutation, IH.
Qed.

(** The keys of [most_common n] are a sublist of a rearrangement of the
    keys of the table. *)
Lemma most_common_keys n t :
  exists ks, map fst (most_common n t) `sublist_of` ks /\ ks ≡ₚ map fst t.
Proof.
  exists (map fst (sorted_desc t)). split.
  - unfold most_common. rewrite <- firstn_map. apply sublist_take.
  - apply Permutation_map, sorted_desc_Permutation.
Qed.

Lemma get_top_colors_elem colors n c :
  In c (get_top_colors colors n) -> In c colors /\ is_filtered c = false.
Proof.
  unfold get_top_colors.
  set (kept := List.filter (fun color => negb (is_filtered color)) colors).
  destruct (most_common_keys n (Counter kept)) as (ks & Hsub & Hperm).
  intros Hin.
  assert (Hk : In c kept).
  { apply Counter_keys. apply list_elem_of_In. rewrite <- Hperm.
    eapply elem_of_sublist; [|exact Hsub]. now apply list_elem_of_In. }
  apply filter_In in Hk as [? Hf]. split; [assumption|].
  now apply negb_true_iff.
Qed.

Lemma get_top_colors_NoDup colors n : NoDup (get_top_colors colors n).
Proof.
  unfold get_top_colors.
  set (kept := List.filter (fun color => negb (is_filtered color)) colors).
  destruct (most_common_keys n (Counter kept)) as (ks & Hsub & Hperm).
  apply (sublist_NoDup _ ks); [|exact Hsub].
  rewrite Hperm. apply Counter_keys.
Qed.

Lemma get_top_colors_length colors n :
  (Z.of_nat (length (get_top_colors colors n)) <= Z.max 0 n)%Z.
Proof.
  unfold get_top_colors, most_common.
  rewrite length_map, length_take. lia.
Qed.

End Ranker.

(** ** Sets and the button extractor *)

Section Sets.

Context `{PySet}.

Lemma set_iter_length l : length (set_iter l) <= length l.
Proof.
  apply submseteq_length, NoDup_submseteq; [apply set_iter_NoDup|].
  intros x. apply set_iter_elem.
Qed.


Lemma set_iter_nil : set_iter [] = [].
Proof.
  destruct (set_iter []) as [|x l] eqn:E; [reflexivity|].
  assert (Hx : x ∈ set_iter []) by (rewrite E; left).
  apply set_iter_elem, elem_of_nil in Hx. contradiction.
Qed.

Lemma set_iter_singleton x : set_iter [x] = [x].
Proof.
  pose proof (set_iter_length [x]) as Hlen.
  pose proof (proj2 (set_iter_elem [x] x) (list_elem_of_here _ _)) as Hx.
  destruct (set_iter [x]) as [|y [|z l]] eqn:E; simpl in Hlen;
    [now apply elem_of_nil in Hx| |lia].
  apply list_elem_of_singleton in Hx. now subst.
Qed.

Lemma extract_button_colors_elem styles css_contents c :
  c ∈ extract_button_colors styles css_contents ->
  exists tok, In tok (button_color_tokens styles css_contents)
              /\ c = expand_color_shorthand tok.
Proof.
  unfold extract_button_colors. intros Hc.
  pose proof (elem_of_sublist _ _ _ Hc (sublist_take _ 4)) as Hc'.
  apply set_iter_elem, list_elem_of_In, in_map_iff in Hc' as (tok & <- & Hin).
  eauto.
Qed.

End Sets.

Section ButtonBlocks.

Import Re.

Lemma match_ci_Some kw s m r :
  match_ci kw s = Some (m, r) -> s = m ++ r /\ map lower_char m = kw.
Proof.
  revert s m r; induction kw as [|k kw IH]; intros s m r; simpl.
  - intros [= <- <-]; auto.
  - destruct s as [|c s']; [discriminate|].
    destruct (Ascii.eqb_spec (lower_char c) k) as [<-|]; [|discriminate].
    destruct (match_ci kw s') as [[m' r']|] eqn:E; [|discriminate].
    intros [= <- <-]. destruct (IH _ _ _ E) as [-> <-]. auto.
Qed.

Lemma span_spec p s a r :
  span p s = (a, r) -> s = a ++ r /\ forallb p a = true.
Proof.
  revert a r; induction s as [|c s IH]; intros a r; simpl.
  - intros [= <- <-]; auto.
  - destruct (p c) eqn:Hc.
    + destruct (span p s) as [a' r'] eqn:E. intros [= <- <-].
      destruct (IH _ _ eq_refl) as [-> Ha]. simpl. now rewrite Hc, Ha.
    + intros [= <- <-]; auto.
Qed.

(** What a match of the button pattern is made of. *)
Lemma button_match_Some s blk :
  button_match s = Some blk ->
  exists kw ws body r,
    blk = kw ++ ws ++ "{"%char :: body ++ ["}"%char] /\ s = blk ++ r
    /\ map lower_char kw = list_ascii_of_string "button"
    /\ forallb is_space ws = true /\ forallb not_rbrace body = true.
Proof.
  unfold button_match.
  destruct (match_ci _ s) as [[kw r1]|] eqn:Hkw; [|discriminate].
  apply match_ci_Some in Hkw as [-> Hkw].
  destruct (span is_space r1) as [ws r2] eqn:Hws.
  apply span_spec in Hws as [-> Hws].
  destruct r2 as [|c r3]; [discriminate|].
  destruct (Ascii.eqb_spec c "{"%char) as [->|Hne].
  2:{ destruct c as [[] [] [] [] [] [] [] []]; try discriminate; congruence. }
  destruct (span not_rbrace r3) as [body r4] eqn:Hb.
  apply span_spec in Hb as [-> Hb].
  destruct r4 as [|c r5]; [discriminate|].
  destruct (Ascii.eqb_spec c "}"%char) as [->|Hne].
  2:{ destruct c as [[] [] [] [] [] [] [] []]; try discriminate; congruence. }
  intros [= <-]. exists kw, ws, body, r5. repeat split; try assumption.
  repeat (rewrite <- app_assoc; simpl). reflexivity.
Qed.

Lemma not_hash_lower kw :
  forallb (fun c => negb (is_hash c)) (map lower_char kw) = true ->
  forallb (fun c => negb (is_hash c)) kw = true.
Proof.
  induction kw as [|c kw IH]; simpl; [reflexivity|].
  intros [Hc Hkw]%andb_true_iff. rewrite (IH Hkw), andb_true_r.
  destruct c as [[] [] [] [] [] [] [] []]; try reflexivity; discriminate.
Qed.

Lemma space_not_hash ws :
  forallb is_space ws = true -> forallb (fun c => negb (is_hash c)) ws = true.
Proof.
  induction ws as [|c ws IH]; simpl; [reflexivity|].
  intros [Hc Hws]%andb_true_iff. rewrite (IH Hws), andb_true_r.
  destruct c as [[] [] [] [] [] [] [] []]; try reflexivity; discriminate.
Qed.

(** A colour token found in a match of the button pattern lies between
    its braces. *)
Lemma block_token_in_body kw ws body tok :
  map lower_char kw = list_ascii_of_string "button" ->
  forallb is_space ws = true ->
  In tok (scan color_match 0 (kw ++ ws ++ "{"%char :: body ++ ["}"%char])) ->
  exists b1 b2, body = b1 ++ tok ++ b2.
Proof.
  intros Hkw Hws Hin.
  replace (kw ++ ws ++ "{"%char :: body ++ ["}"%char])
    with ((kw ++ ws ++ ["{"%char]) ++ body ++ ["}"%char]) in Hin
    by (repeat (rewrite <- app_assoc; simpl); reflexivity).
  rewrite scan_color_prefix in Hin.
  2:{ rewrite !forallb_app, (space_not_hash _ Hws).
      rewrite not_hash_lower; [reflexivity|]. rewrite Hkw. reflexivity. }
  destruct (scan_elem _ _ _ _ Hin) as (a & s' & Hs & Hm).
  destruct (color_match_Some _ _ Hm) as (h & r & -> & -> & Hh & Hl).
  exists a. destruct r as [|x r _] using rev_ind.
  - exfalso. rewrite app_nil_r in Hs.
    destruct h as [|y h _] using rev_ind; [simpl in Hl; lia|].
    rewrite app_comm_cons, app_assoc in Hs.
    apply app_inj_tail in Hs as [_ <-].
    rewrite forallb_app in Hh. simpl in Hh.
    apply andb_true_iff in Hh as [_ Hh]. discriminate.
  - exists r. rewrite !app_assoc in Hs. apply app_inj_tail in Hs as [-> _].
    now rewrite <- app_assoc.
Qed.

End ButtonBlocks.

Lemma findall_button_styles_token css blk tok :
  In blk (findall_button_styles css) -> In tok (findall_colors blk) ->
  in_button_block css tok.
Proof.
  unfold findall_button_styles, findall_colors, Re.findall.
  intros (b & <- & Hb)%in_map_iff (t & <- & Ht)%in_map_iff.
  rewrite list_ascii_of_string_of_list_ascii in Ht.
  destruct (scan_elem _ _ _ _ Hb) as (pre & s' & Hcss & Hm).
  destruct (button_match_Some _ _ Hm) as (kw & ws & body & post & -> & -> & Hkw & Hws & Hbody).
  destruct (block_token_in_body _ _ _ _ Hkw Hws Ht) as (b1 & b2 & ->).
  exists pre, kw, ws, b1, b2, post.
  rewrite !list_ascii_of_string_of_list_ascii.
  repeat split; try assumption.
  rewrite Hcss. repeat (rewrite <- app_assoc; simpl). reflexivity.
Qed.

Lemma button_color_tokens_elem styles css_contents tok :
  In tok (button_color_tokens styles css_contents) ->
  (exists style, In style styles /\ In tok (findall_colors style)) \/
  (exists css, In css css_contents /\ in_button_block css tok
               /\ exists blk, In tok (findall_colors blk)).
Proof.
  unfold button_color_tokens. intros [Hin|Hin]%in_app_or.
  - left. apply in_flat_map in Hin as (style & ? & ?). eauto.
  - right. apply in_flat_map in Hin as (css & Hcss & Hin).
    apply in_flat_map in Hin as (blk & Hblk & Hin).
    exists css. eauto using findall_button_styles_token.
Qed.

(** ** The extractor, the ranker and the button extractor *)




(** C6: whatever the colours and the target count N, the palette that
    [get_top_colors] returns holds no spelling of pure white or pure black
    (three or six digits, any case), has at most N entries (none when N is
    negative), has no entry twice, and stays free of filtered colours when
    any colour, the most frequent one included, is taken out of the input
    before ranking again. *)
Theorem get_top_colors_palette (colors : list string) (n : Z) :
  Forall (fun c => is_filtered c = false) (get_top_colors colors n)
  /\ (Z.of_nat (length (get_top_colors colors n)) <= Z.max 0 n)%Z
  /\ NoDup (get_top_colors colors n)
  /\ forall removed,
       Forall (fun c => is_filtered c = false)
         (get_top_colors (List.filter (fun c => negb (String.eqb c removed)) colors) n).
Proof.
  assert (Hf : forall l, Forall (fun c => is_filtered c = false) (get_top_colors l n)).
  { intros l. apply Forall_forall. intros c Hc%list_elem_of_In.
    now apply get_top_colors_elem in Hc. }
  repeat split; auto using get_top_colors_length, get_top_colors_NoDup.
Qed.

(** C8, as the specification states it, fails: the pattern is not anchored
    at the start of a selector, so the colour of the class rule
    [.navbutton{color:#123456}] is taken, whatever the order of the set,
    while the stylesheet has no rule whose selector is the tag [button]. *)
Lemma navbutton_color_taken :
  (forall O : PySet,
     @extract_button_colors O [] [".navbutton{color:#123456}"] = ["#123456"])
  /\ CssRules.button_rule_colors ".navbutton{color:#123456}" = []
  /\ CssRules.rule_blocks (CssRules.InSelector [])
       (list_ascii_of_string ".navbutton{color:#123456}")
     = [(list_ascii_of_string ".navbutton", list_ascii_of_string "color:#123456")].
Proof.
  split; [|vm_compute; auto].
  intros O. unfold extract_button_colors.
  change (map expand_color_shorthand _) with ["#123456"].
  rewrite set_iter_singleton. reflexivity.
Qed.

(** C8, amended: every colour of the button palette is the expansion of a
    colour token that was found either in an inline style or between the
    braces of a piece of a stylesheet that reads [button], in any case,
    then blanks, then a brace block; the text before the word [button] is
    not looked at, so a selector that only ends in it, such as
    [.navbutton], counts. *)
Theorem button_colors_sources `{PySet} (styles css_contents : list string) :
  Forall (fun c =>
            exists tok, c = expand_color_shorthand tok /\
              ((exists style, style ∈ styles /\ tok ∈ findall_colors style)
               \/ (exists css, css ∈ css_contents /\ in_button_block css tok)))
    (extract_button_colors styles css_contents).
Proof.
  apply Forall_forall. intros c Hc.
  apply extract_button_colors_elem in Hc as (tok & Htok & ->).
  exists tok. split; [reflexivity|].
  apply button_color_tokens_elem in Htok
    as [(style & Hs & Hin)|(css & Hcss & Hblk & _)]; [left|right].
  - exists style. now rewrite !list_elem_of_In.
  - exists css. now rewrite list_elem_of_In.
Qed.



(** ** Channels and luminances *)

Section Channels.

Import Checks.

Lemma all_ascii_elem c : In c all_ascii.
Proof.
  unfold all_ascii. rewrite <- (ascii_nat_embedding c).
  apply in_map, in_seq. pose proof (nat_ascii_bounded c). lia.
Qed.

Lemma on_slices_true p cs s :
  on_slices p cs = true -> (forall c, In c cs) -> length s <= 2 -> p s = true.
Proof.
  unfold on_slices. intros [H0 Hc]%andb_true_iff Hall Hlen.
  rewrite List.forallb_forall in Hc.
  destruct s as [|a [|b [|? ?]]]; simpl in Hlen; [exact H0| | |lia];
    destruct (proj1 (andb_true_iff _ _) (Hc a (Hall a))) as [H1 H2];
    [exact H1|].
  rewrite List.forallb_forall in H2. exact (H2 b (Hall b)).
Qed.

Lemma int16_check_true : on_slices int16_in_channel all_ascii = true.
Proof. vm_compute. reflexivity. Qed.

(** [int(s, 16)] of a slice of at most two characters is between -15 and
    255. *)
Lemma int16_range s z :
  length s <= 2 -> Int16.int16 s = Ok z -> in_channel z = true.
Proof.
  intros Hlen Hz.
  pose proof (on_slices_true _ _ s int16_check_true all_ascii_elem Hlen) as Hs.
  unfold int16_in_channel in Hs. now rewrite Hz in Hs.
Qed.

Lemma hex_to_rgb_range color r g b :
  hex_to_rgb color = Ok (r, g, b) ->
  in_channel r = true /\ in_channel g = true /\ in_channel b = true.
Proof.
  unfold hex_to_rgb.
  set (h := drop_while is_hash (list_ascii_of_string color)).
  destruct (Int16.int16 (take 2 h)) as [r'|] eqn:Hr; [|discriminate].
  destruct (Int16.int16 (take 2 (drop 2 h))) as [g'|] eqn:Hg; [|discriminate].
  destruct (Int16.int16 (take 2 (drop 4 h))) as [b'|] eqn:Hb; [|discriminate].
  simpl. intros [= <- <- <-].
  repeat split; eapply int16_range; eauto; rewrite length_take; lia.
Qed.

Lemma hex_pair_check_true : on_slices hex_pair_read all_ascii = true.
Proof. vm_compute. reflexivity. Qed.

Lemma int16_hex_pair a b :
  is_hex a = true -> is_hex b = true -> exists z, Int16.int16 [a; b] = Ok z.
Proof.
  intros Ha Hb.
  pose proof (on_slices_true _ _ [a; b] hex_pair_check_true all_ascii_elem
                (le_n 2)) as Hs.
  unfold hex_pair_read in Hs. rewrite Ha, Hb in Hs. simpl in Hs.
  destruct (Int16.int16 [a; b]) as [z|]; [eauto|discriminate].
Qed.

Lemma is_hex_not_hash a : is_hex a = true -> is_hash a = false.
Proof. destruct a as [[] [] [] [] [] [] [] []]; (reflexivity || discriminate). Qed.

(** Every colour in the six-digit form converts. *)
Lemma full_hex_converts color :
  full_hex color = true -> exists v, hex_to_rgb color = Ok v.
Proof.
  unfold full_hex, hex_to_rgb.
  destruct (list_ascii_of_string color) as [|m h]; [discriminate|].
  destruct (Ascii.eqb_spec m "#"%char) as [->|Hne].
  2:{ destruct m as [[] [] [] [] [] [] [] []]; try discriminate; congruence. }
  intros [Hl%Nat.eqb_eq Hh]%andb_true_iff.
  destruct h as [|a [|b [|c [|d [|e [|f [|? ?]]]]]]]; try discriminate.
  simpl in Hh.
  repeat match type of Hh with
         | (_ && _) = true => let H := fresh "Hx" in apply andb_true_iff in Hh as [H Hh]
         end.
  cbn [drop_while]. change (is_hash "#"%char) with true. cbv iota.
  cbn [drop_while]. rewrite (is_hex_not_hash a) by assumption.
  cbn [take drop firstn skipn].
  destruct (int16_hex_pair a b) as [r ->]; [assumption..|].
  destruct (int16_hex_pair c d) as [g ->]; [assumption..|].
  destruct (int16_hex_pair e f) as [b' ->]; [assumption..|].
  simpl. eauto.
Qed.

Lemma zrange_elem n lo z : (lo <= z < lo + Z.of_nat n)%Z -> In z (zrange n lo).
Proof.
  revert lo; induction n as [|n IH]; intros lo Hz; simpl; [lia|].
  destruct (Z.eq_dec lo z); [auto|]. right. apply IH. lia.
Qed.

Lemma channel_values_elem z : in_channel z = true -> In z channel_values.
Proof.
  unfold in_channel. intros [?%Z.leb_le ?%Z.leb_le]%andb_true_iff.
  apply zrange_elem. lia.
Qed.

Lemma on_sums_true w k rs gs bs r g b :
  on_sums w k rs gs bs = true -> In r rs -> In g gs -> In b bs ->
  decided w k (r + g + b)%float = true.
Proof.
  unfold on_sums. intros Hc Hr Hg Hb.
  rewrite List.forallb_forall in Hc. specialize (Hc r Hr).
  rewrite List.forallb_forall in Hc. specialize (Hc g Hg).
  rewrite List.forallb_forall in Hc. exact (Hc b Hb).
Qed.

Lemma luminance_check_true :
  on_sums (relative_luminance white) (relative_luminance black)
    red_terms green_terms blue_terms = true.
Proof. vm_compute. reflexivity. Qed.

(** The white and black tests on every colour with channels in range. *)
Lemma luminance_decided r g b :
  in_channel r = true -> in_channel g = true -> in_channel b = true ->
  decided (relative_luminance white) (relative_luminance black)
    (relative_luminance (r, g, b)) = true.
Proof.
  intros Hr%channel_values_elem Hg%channel_values_elem Hb%channel_values_elem.
  apply (on_sums_true _ _ _ _ _ _ _ _ luminance_check_true).
  - exact (in_map (fun r => 0.2126 * float_of_Z r)%float _ _ Hr).
  - exact (in_map (fun g => 0.7152 * float_of_Z g)%float _ _ Hg).
  - exact (in_map (fun b => 0.0722 * float_of_Z b)%float _ _ Hb).
Qed.

End Channels.

(** ** The recommender *)

Section Recommender.

Implicit Types (d c : rgb) (st : selection) (item : string * string).

Lemma map_result_Ok {A B} (f : A -> result B) (l : list A) :
  Forall (fun a => exists b, f a = Ok b) l ->
  exists bs, map_result f l = Ok bs /\ Forall2 (fun a b => f a = Ok b) l bs.
Proof.
  induction 1 as [|a l [b Hb] _ (bs & Hbs & IH)]; simpl.
  - exists []. auto.
  - exists (b :: bs). rewrite Hb, Hbs. auto.
Qed.

Lemma map_result_inv {A B} (f : A -> result B) (l : list A) bs :
  map_result f l = Ok bs -> Forall2 (fun a b => f a = Ok b) l bs.
Proof.
  revert bs; induction l as [|a l IH]; simpl; intros bs.
  - intros [= <-]. constructor.
  - destruct (f a) as [b|] eqn:Hb; [|discriminate]. simpl.
    destruct (map_result f l) as [bs'|]; [|discriminate]. simpl.
    intros [= <-]. auto.
Qed.

Lemma insert_by_Permutation {A} (key : A -> float) x (l : list A) :
  insert_by key x l ≡ₚ x :: l.
Proof.
  induction l as [|y l IH]; simpl; [reflexivity|].
  destruct (PrimFloat.ltb (key y) (key x)); [|reflexivity].
  rewrite IH. apply Permutation_swap.
Qed.

Lemma sorted_Permutation {A} (key : A -> float) (l : list A) : sorted key l ≡ₚ l.
Proof.
  induction l as [|x l IH]; simpl; [reflexivity|].
  now rewrite insert_by_Permutation, IH.
Qed.

(** The darkest colour is the colour of an input. *)
Lemma darkest_Ok existing d :
  darkest existing = Ok d -> exists color, color ∈ existing /\ hex_to_rgb color = Ok d.
Proof.
  unfold darkest.
  destruct (map_result hex_to_rgb existing) as [rgbs|] eqn:Hm; [|discriminate]. simpl.
  apply map_result_inv in Hm.
  destruct (sorted relative_luminance rgbs) as [|x l] eqn:Hs; [discriminate|].
  intros [= ->].
  assert (Hd : d ∈ rgbs).
  { rewrite <- (sorted_Permutation relative_luminance rgbs), Hs. left. }
  apply list_elem_of_lookup in Hd as [i Hi].
  destruct (Forall2_lookup_r _ _ _ _ _ Hm Hi) as (color & Hc & Hrgb).
  exists color. split; [|exact Hrgb]. eapply list_elem_of_lookup_2; eauto.
Qed.

(** On a palette that is not empty and whose colours all convert, there is
    a darkest colour. *)
Lemma darkest_total existing :
  existing <> [] -> Forall (fun color => exists v, hex_to_rgb color = Ok v) existing ->
  exists d, darkest existing = Ok d.
Proof.
  intros Hne Hall. unfold darkest.
  destruct (map_result_Ok _ _ Hall) as (rgbs & -> & H2). simpl.
  destruct (sorted relative_luminance rgbs) as [|x l] eqn:Hs; [|eauto].
  exfalso. pose proof (sorted_Permutation relative_luminance rgbs) as Hp.
  rewrite Hs in Hp. apply Permutation_nil_l in Hp. subst rgbs.
  inversion H2; subst. contradiction.
Qed.

Lemma rainbow_step_Ok d st name code c :
  hex_to_rgb code = Ok c ->
  rainbow_step d st (name, code)
  = Ok (if differs_by_more_than 0.5 d c then select code (vibrant name) st else st).
Proof.
  intros Hc. unfold rainbow_step, differs_by_more_than. rewrite Hc. simpl.
  now destruct (PrimFloat.ltb _ _).
Qed.

Lemma for_each_app {A S} (body : S -> A -> result S) l1 l2 (s : S) :
  for_each body (l1 ++ l2) s = bind (for_each body l1 s) (for_each body l2).
Proof.
  revert s; induction l1 as [|a l1 IH]; intros s; simpl; [reflexivity|].
  destruct (body s a); simpl; auto.
Qed.

(** The loop over a list of candidates that all convert: the state it ends
    in holds the last candidate that passes the test, with its reason, and
    is the starting state when none passes. *)
Lemma rainbow_run d (l : list (string * string)) st0 :
  Forall (fun item => exists c, hex_to_rgb (snd item) = Ok c) l ->
  exists st, for_each (rainbow_step d) l st0 = Ok st /\
    match last (List.filter (qualifies d) l) with
    | Some (name, code) =>
        contrast_color st = Some code /\ reasons st !! code = Some (vibrant name)
    | None => st = st0
    end.
Proof.
  induction l as [|[name code] l IH] using rev_ind; intros Hall.
  - exists st0. split; reflexivity.
  - apply Forall_app in Hall as [Hl Hx].
    apply Forall_singleton in Hx as [c Hc]. simpl in Hc.
    destruct (IH Hl) as (st1 & Hrun & Hlast).
    assert (Hq : qualifies d (name, code) = differs_by_more_than 0.5 d c)
      by (unfold qualifies; simpl; now rewrite Hc).
    rewrite for_each_app, Hrun. cbn [bind for_each].
    rewrite (rainbow_step_Ok _ _ _ _ _ Hc). cbn [bind].
    rewrite List.filter_app. cbn [List.filter]. rewrite Hq.
    destruct (differs_by_more_than 0.5 d c).
    + eexists. split; [reflexivity|]. rewrite last_snoc. simpl.
      split; [reflexivity|]. apply lookup_insert_eq.
    + exists st1. split; [reflexivity|]. now rewrite app_nil_r.
Qed.

Lemma rainbow_colors_convert :
  Forall (fun item => exists c, hex_to_rgb (snd item) = Ok c) rainbow_colors.
Proof. repeat constructor; eexists; vm_compute; reflexivity. Qed.

Lemma last_filter_elem {A} (p : A -> bool) (l : list A) x :
  last (List.filter p l) = Some x -> x ∈ l.
Proof.
  intros Hx%last_Some_elem_of. apply list_elem_of_In in Hx.
  apply filter_In in Hx as [Hx _]. now apply list_elem_of_In.
Qed.

(** After the loop over the first candidates of a list with distinct
    codes, the selection is not the code of a later candidate. *)
Lemma rainbow_prefix_fresh d (l : list (string * string)) i name code st :
  NoDup (map snd l) -> l !! i = Some (name, code) ->
  for_each (rainbow_step d) (take i l) no_selection = Ok st ->
  Forall (fun item => exists c, hex_to_rgb (snd item) = Ok c) l ->
  contrast_color st <> Some code.
Proof.
  intros Hnd Hi Hrun Hall.
  destruct (rainbow_run d (take i l) no_selection) as (st' & Hrun' & Hlast).
  { apply Forall_take, Hall. }
  rewrite Hrun in Hrun'. injection Hrun' as <-.
  destruct (last (List.filter (qualifies d) (take i l))) as [[n' c']|] eqn:E.
  - destruct Hlast as [-> _]. intros [= ->].
    apply last_filter_elem, elem_of_take in E as (j & Hj & Hlt).
    assert (Hj' : map snd l !! j = Some code).
    { change (map snd l) with (snd <$> l). rewrite list_lookup_fmap, Hj. reflexivity. }
    assert (Hi' : map snd l !! i = Some code).
    { change (map snd l) with (snd <$> l). rewrite list_lookup_fmap, Hi. reflexivity. }
    pose proof (NoDup_lookup _ _ _ _ Hnd Hj' Hi'). lia.
  - subst st. discriminate.
Qed.

Lemma rainbow_codes_NoDup : NoDup (map snd rainbow_colors).
Proof. apply (bool_decide_unpack _). vm_compute. reflexivity. Qed.

(** The selection after the whole loop is [None] or the code of a
    candidate. *)
Lemma rainbow_pass_Ok d :
  exists st, rainbow_pass d = Ok st /\
    match last_qualifying d with
    | Some (name, code) =>
        contrast_color st = Some code /\ reasons st !! code = Some (vibrant name)
    | None => st = no_selection
    end.
Proof. apply rainbow_run, rainbow_colors_convert. Qed.

Lemma conclude_select code reason st :
  code <> "" -> conclude (select code reason st) = (code, reason).
Proof.
  intros Hne. unfold conclude, select. simpl.
  destruct (String.eqb_spec code ""); [contradiction|].
  now rewrite lookup_insert_eq.
Qed.

End Recommender.

Lemma rainbow_codes_other :
  Forall (fun item => snd item <> "" /\ snd item <> "#ffffff" /\ snd item <> "#000000")
    rainbow_colors.
Proof. repeat constructor; discriminate. Qed.

(** After the loop the selection is neither white nor black. *)
Lemma rainbow_pass_not_white_black (d : rgb) st :
  rainbow_pass d = Ok st ->
  contrast_color st <> Some "#ffffff" /\ contrast_color st <> Some "#000000".
Proof.
  intros Hrun. destruct (rainbow_pass_Ok d) as (st' & Hrun' & Hlast).
  rewrite Hrun in Hrun'. injection Hrun' as <-.
  destruct (last_qualifying d) as [[name code]|] eqn:E.
  - destruct Hlast as [-> _].
    apply last_filter_elem in E.
    pose proof (proj1 (Forall_forall _ _) rainbow_codes_other _ E) as (_ & Hw & Hk).
    simpl in Hw, Hk. split; congruence.
  - subst st. split; discriminate.
Qed.

(** C1, as the specification states it, fails: the cut-off of the code is
    0.5, not 50.  With the palette ["#000000"] the darkest colour is black,
    of luminance 0; the third candidate, blue, of luminance 18.411, is
    selected at its turn although the difference is not above 50. *)
Lemma blue_selected_below_50 :
  darkest ["#000000"] = Ok black
  /\ rainbow_colors !! 2%nat = Some ("Blue", "#0000ff")
  /\ hex_to_rgb "#0000ff" = Ok (0, 0, 255)%Z
  /\ (exists st st',
        for_each (rainbow_step black) (take 2 rainbow_colors) no_selection = Ok st
        /\ rainbow_step black st ("Blue", "#0000ff") = Ok st'
        /\ contrast_color st' = Some "#0000ff")
  /\ differs_by_more_than 50 black (0, 0, 255)%Z = false
  /\ differs_by_more_than 0.5 black (0, 0, 255)%Z = true.
Proof.
  repeat split; try (vm_compute; reflexivity).
  exists (select "#4b0082" (vibrant "Indigo") (select "#8a2be2" (vibrant "Violet") no_selection)).
  exists (select "#0000ff" (vibrant "Blue")
            (select "#4b0082" (vibrant "Indigo")
               (select "#8a2be2" (vibrant "Violet") no_selection))).
  repeat split; vm_compute; reflexivity.
Qed.

(** C1, amended: with [d] the darkest colour of the palette, a rainbow
    candidate is selected at its turn in the loop if and only if the
    luminances of [d] and of the candidate differ by more than 0.5; after
    the loop white is selected if and only if its luminance differs from
    that of [d] by more than 0.5; and black, which is tested when white
    fails, is then selected if and only if its luminance differs from that
    of [d] by more than 0.5. *)
Theorem candidate_selected_iff_above_half
    (existing : list string) (d : rgb) (i : nat) (name code : string) :
  darkest existing = Ok d ->
  rainbow_colors !! i = Some (name, code) ->
  (exists c st st',
      hex_to_rgb code = Ok c
      /\ for_each (rainbow_step d) (take i rainbow_colors) no_selection = Ok st
      /\ rainbow_step d st (name, code) = Ok st'
      /\ (contrast_color st' = Some code <-> differs_by_more_than 0.5 d c = true))
  /\ (exists st,
        rainbow_pass d = Ok st
        /\ (contrast_color (white_black_check d st) = Some "#ffffff"
            <-> differs_by_more_than 0.5 d white = true)
        /\ (differs_by_more_than 0.5 d white = false ->
            (contrast_color (white_black_check d st) = Some "#000000"
             <-> differs_by_more_than 0.5 d black = true))).
Proof.
  intros _ Hi. split.
  - destruct (proj1 (Forall_lookup _ _) rainbow_colors_convert _ _ Hi) as [c Hc].
    simpl in Hc.
    destruct (rainbow_run d (take i rainbow_colors) no_selection) as (st & Hrun & _).
    { apply Forall_take, rainbow_colors_convert. }
    pose proof (rainbow_prefix_fresh d _ _ _ _ _ rainbow_codes_NoDup Hi Hrun
                  rainbow_colors_convert) as Hfresh.
    exists c, st. eexists. split; [exact Hc|]. split; [exact Hrun|].
    split; [apply rainbow_step_Ok, Hc|].
    destruct (differs_by_more_than 0.5 d c); simpl; split; congruence.
  - destruct (rainbow_pass_Ok d) as (st & Hrun & _). exists st.
    destruct (rainbow_pass_not_white_black d st Hrun) as [Hw Hk].
    split; [exact Hrun|].
    unfold white_black_check.
    change (PrimFloat.ltb 0.5 (PrimFloat.abs (relative_luminance d - relative_luminance white)))
      with (differs_by_more_than 0.5 d white).
    change (PrimFloat.ltb 0.5 (PrimFloat.abs (relative_luminance d - relative_luminance black)))
      with (differs_by_more_than 0.5 d black).
    destruct (differs_by_more_than 0.5 d white), (differs_by_more_than 0.5 d black);
      simpl; repeat split; congruence.
Qed.

(** The theorem at the palette ["#336699"; "#000000"] and the candidate
    green. *)
Lemma candidate_selected_iff_above_half_witness :
  darkest ["#336699"; "#000000"] = Ok black
  /\ rainbow_colors !! 3%nat = Some ("Green", "#00ff00")
  /\ (exists c st st',
        hex_to_rgb "#00ff00" = Ok c
        /\ for_each (rainbow_step black) (take 3 rainbow_colors) no_selection = Ok st
        /\ rainbow_step black st ("Green", "#00ff00") = Ok st'
        /\ (contrast_color st' = Some "#00ff00" <-> differs_by_more_than 0.5 black c = true))
  /\ (exists st,
        rainbow_pass black = Ok st
        /\ (contrast_color (white_black_check black st) = Some "#ffffff"
            <-> differs_by_more_than 0.5 black white = true)
        /\ (differs_by_more_than 0.5 black white = false ->
            (contrast_color (white_black_check black st) = Some "#000000"
             <-> differs_by_more_than 0.5 black black = true))).
Proof.
  split; [vm_compute; reflexivity|]. split; [reflexivity|].
  apply (candidate_selected_iff_above_half ["#336699"; "#000000"] black 3 "Green" "#00ff00").
  - vm_compute; reflexivity.
  - reflexivity.
Defined.

(** C2: on the empty palette the code evaluates [sorted_colors[0]] on the
    empty list, which raises [IndexError]; nothing guards the index, and
    [recommend_button_color] lets the exception through. *)
Theorem empty_palette_raises_IndexError :
  recommend_contrasting_color [] = Raise IndexError
  /\ forall (O : PySet) (button_colors : list string),
       recommend_button_color [] button_colors = Raise IndexError.
Proof.
  split; [reflexivity|].
  intros O button_colors. unfold recommend_button_color.
  rewrite set_iter_nil. reflexivity.
Qed.

(** C5: with [d] the darkest colour of the palette, the loop ends with the
    last candidate, in the order violet, indigo, blue, green, yellow,
    orange, red, that passes the test (no selection when none passes); then
    white, if it passes the test, is the result whatever the loop
    selected; black is tested only when white fails; when both fail the
    result is the selection of the loop, or the default when there is
    none. *)
Theorem last_qualifying_then_white_then_black (existing : list string) (d : rgb) :
  darkest existing = Ok d ->
  (exists st, rainbow_pass d = Ok st
              /\ contrast_color st = snd <$> last_qualifying d)
  /\ recommend_contrasting_color existing
     = Ok (if differs_by_more_than 0.5 d white then ("#ffffff", white_reason)
           else if differs_by_more_than 0.5 d black then ("#000000", black_reason)
           else match last_qualifying d with
                | Some (name, code) => (code, vibrant name)
                | None => (default_color, default_reason)
                end).
Proof.
  intros Hd. destruct (rainbow_pass_Ok d) as (st & Hrun & Hlast).
  assert (Hsel : contrast_color st = snd <$> last_qualifying d).
  { destruct (last_qualifying d) as [[name code]|]; simpl.
    - apply Hlast.
    - now subst st. }
  split; [eauto|].
  unfold recommend_contrasting_color. rewrite Hd. cbn [bind]. rewrite Hrun. cbn [bind].
  unfold white_black_check.
  change (PrimFloat.ltb 0.5 (PrimFloat.abs (relative_luminance d - relative_luminance white)))
    with (differs_by_more_than 0.5 d white).
  change (PrimFloat.ltb 0.5 (PrimFloat.abs (relative_luminance d - relative_luminance black)))
    with (differs_by_more_than 0.5 d black).
  destruct (differs_by_more_than 0.5 d white); [now rewrite conclude_select|].
  destruct (differs_by_more_than 0.5 d black); [now rewrite conclude_select|].
  destruct (last_qualifying d) as [[name code]|] eqn:E.
  - destruct Hlast as [Hc Hr].
    apply last_filter_elem in E.
    pose proof (proj1 (Forall_forall _ _) rainbow_codes_other _ E) as (Hne & _).
    simpl in Hne. unfold conclude. rewrite Hc. simpl.
    destruct (String.eqb_spec code ""); [contradiction|].
    now rewrite Hr.
  - subst st. reflexivity.
Qed.

(** The theorem at the palette ["#ffffff"; "#fffffe"]. *)
Lemma last_qualifying_then_white_then_black_witness :
  darkest ["#ffffff"; "#fffffe"] = Ok (255, 255, 254)%Z
  /\ (exists st, rainbow_pass (255, 255, 254)%Z = Ok st
                 /\ contrast_color st = snd <$> last_qualifying (255, 255, 254)%Z)
  /\ recommend_contrasting_color ["#ffffff"; "#fffffe"]
     = Ok (if differs_by_more_than 0.5 (255, 255, 254)%Z white then ("#ffffff", white_reason)
           else if differs_by_more_than 0.5 (255, 255, 254)%Z black then ("#000000", black_reason)
           else match last_qualifying (255, 255, 254)%Z with
                | Some (name, code) => (code, vibrant name)
                | None => (default_color, default_reason)
                end).
Proof.
  split; [vm_compute; reflexivity|].
  apply (last_qualifying_then_white_then_black ["#ffffff"; "#fffffe"] (255, 255, 254)%Z).
  vm_compute; reflexivity.
Defined.

(** C7: on the palette ["#000000"] the darkest colour is black, of luminance
    0; the luminance of white differs from it by more than the cut-off (and
    by more than 50), and the recommendation is white with the reason that
    goes with white. *)
Theorem black_palette_recommends_white :
  recommend_contrasting_color ["#000000"]
  = Ok ("#ffffff", "White is a classic choice that ensures high contrast and readability.")
  /\ darkest ["#000000"] = Ok black
  /\ relative_luminance black = 0%float
  /\ differs_by_more_than 0.5 black white = true
  /\ differs_by_more_than 50 black white = true.
Proof. vm_compute. repeat split. Qed.

(** C9: the recommendation of [recommend_button_color] is that of the
    contrast recommender on the set of the primary colours; it is the same
    for any two button palettes. *)
Theorem button_colors_not_read `{PySet}
    (primary_colors button_colors button_colors' : list string) :
  recommend_button_color primary_colors button_colors
  = recommend_button_color primary_colors button_colors'
  /\ recommend_button_color primary_colors button_colors
     = recommend_contrasting_color (set_iter primary_colors).
Proof. split; reflexivity. Qed.

(** * Further properties of the code *)

(** ** Colours and channels *)

(** X1: expanding an expanded colour changes nothing: for every string,
    [expand_color_shorthand] applied twice is [expand_color_shorthand]
    applied once. *)
Theorem expand_color_shorthand_idempotent (color : string) :
  expand_color_shorthand (expand_color_shorthand color) = expand_color_shorthand color.
Proof.
  destruct color as [|m [|c1 [|c2 [|c3 [|c4 rest]]]]]; try reflexivity;
    destruct m as [[] [] [] [] [] [] [] []]; reflexivity.
Qed.

Section Reading.

Import Checks HexChecks.

Lemma result_eqb_eq x y : result_eqb x y = true -> x = y.
Proof.
  destruct x as [a|[]], y as [b|[]]; simpl; try discriminate; try reflexivity.
  now intros ->%Z.eqb_eq.
Qed.

Lemma hex_pair_value_true : on_slices hex_pair_value all_ascii = true.
Proof. vm_compute. reflexivity. Qed.

Lemma int16_hex_pair_value a b :
  is_hex a = true -> is_hex b = true ->
  Int16.int16 [a; b] = Ok (16 * hex_value a + hex_value b)%Z.
Proof.
  intros Ha Hb.
  pose proof (on_slices_true _ _ [a; b] hex_pair_value_true all_ascii_elem (le_n 2)) as Hs.
  unfold hex_pair_value in Hs. rewrite Ha, Hb in Hs. now apply result_eqb_eq.
Qed.

Lemma hex_value_range a : is_hex a = true -> (0 <= hex_value a <= 15)%Z.
Proof.
  destruct a as [[] [] [] [] [] [] [] []]; try discriminate; intros _; vm_compute;
    split; discriminate.
Qed.

Lemma drop_while_lower (p : ascii -> bool) s :
  (forall c, p (lower_char c) = p c) ->
  drop_while p (map lower_char s) = map lower_char (drop_while p s).
Proof.
  intros Hp. induction s as [|c s IH]; simpl; [reflexivity|].
  rewrite Hp, IH. now destruct (p c).
Qed.

Lemma is_blank_lower c : Int16.is_blank (lower_char c) = Int16.is_blank c.
Proof. destruct c as [[] [] [] [] [] [] [] []]; reflexivity. Qed.

Lemma is_hash_lower c : is_hash (lower_char c) = is_hash c.
Proof. destruct c as [[] [] [] [] [] [] [] []]; reflexivity. Qed.

Lemma is_hex_lower c : is_hex (lower_char c) = is_hex c.
Proof. destruct c as [[] [] [] [] [] [] [] []]; reflexivity. Qed.

Lemma hex_value_lower c : is_hex c = true -> hex_value (lower_char c) = hex_value c.
Proof. destruct c as [[] [] [] [] [] [] [] []]; try discriminate; reflexivity. Qed.

Lemma strip_lower s : Int16.strip (map lower_char s) = map lower_char (Int16.strip s).
Proof.
  unfold Int16.strip.
  rewrite (drop_while_lower _ _ is_blank_lower), <- map_rev.
  rewrite (drop_while_lower _ _ is_blank_lower), map_rev. reflexivity.
Qed.

Lemma digits_lower acc s : Int16.digits acc (map lower_char s) = Int16.digits acc s.
Proof.
  revert acc; induction s as [|c s IH]; intros acc; simpl; [reflexivity|].
  rewrite is_hex_lower. destruct (is_hex c) eqn:Hc; [|reflexivity].
  now rewrite hex_value_lower, IH.
Qed.

Lemma unsigned_lower s : Int16.unsigned (map lower_char s) = Int16.unsigned s.
Proof. destruct s as [|c s]; [reflexivity|]. apply (digits_lower 0 (c :: s)). Qed.

(** [int(_, 16)] reads a literal and its lowercase alike. *)
Lemma int16_lower s : Int16.int16 (map lower_char s) = Int16.int16 s.
Proof.
  unfold Int16.int16. rewrite strip_lower.
  destruct (Int16.strip s) as [|c d]; [reflexivity|].
  assert (Hd : Int16.unsigned (map lower_char d) = Int16.unsigned d)
    by apply unsigned_lower.
  assert (Hcd : forall c', lower_char c = c' ->
                  Int16.unsigned (c' :: map lower_char d) = Int16.unsigned (c :: d)).
  { intros c' <-. apply (unsigned_lower (c :: d)). }
  cbn [map].
  destruct c as [[] [] [] [] [] [] [] []];
    match goal with
    | |- context [lower_char ?c] =>
        let v := eval vm_compute in (lower_char c) in
        change (lower_char c) with v; cbv iota;
        first [rewrite Hd | rewrite (Hcd v eq_refl)]; reflexivity
    end.
Qed.

Lemma int16_raises s e : Int16.int16 s = Raise e -> e = ValueError.
Proof.
  unfold Int16.int16. destruct (match Int16.strip s with [] => _ | _ => _ end);
    [discriminate|]. now intros [= <-].
Qed.

Lemma hex_to_rgb_raises color e : hex_to_rgb color = Raise e -> e = ValueError.
Proof.
  unfold hex_to_rgb.
  set (h := drop_while is_hash (list_ascii_of_string color)).
  destruct (Int16.int16 (take 2 h)) as [r|e1] eqn:Hr; simpl.
  2:{ intros [= <-]. eapply int16_raises, Hr. }
  destruct (Int16.int16 (take 2 (drop 2 h))) as [g|e2] eqn:Hg; simpl.
  2:{ intros [= <-]. eapply int16_raises, Hg. }
  destruct (Int16.int16 (take 2 (drop 4 h))) as [b|e3] eqn:Hb; simpl; [discriminate|].
  intros [= <-]. eapply int16_raises, Hb.
Qed.

Lemma hex_to_rgb_lower color : hex_to_rgb (lower color) = hex_to_rgb color.
Proof.
  unfold hex_to_rgb, lower.
  rewrite list_ascii_of_string_of_list_ascii, (drop_while_lower _ _ is_hash_lower).
  set (h := drop_while is_hash (list_ascii_of_string color)).
  change (take 2 (map lower_char h)) with (firstn 2 (map lower_char h)).
  change (take 2 (drop 2 (map lower_char h)))
    with (firstn 2 (skipn 2 (map lower_char h))).
  change (take 2 (drop 4 (map lower_char h)))
    with (firstn 2 (skipn 4 (map lower_char h))).
  rewrite !skipn_map, !firstn_map, !int16_lower.
  reflexivity.
Qed.

End Reading.

Lemma hex_to_rgb_six a b c d e f :
  forallb is_hex [a; b; c; d; e; f] = true ->
  hex_to_rgb (String "#" (String a (String b (String c (String d
                (String e (String f EmptyString)))))))
  = Ok (16 * hex_value a + hex_value b, 16 * hex_value c + hex_value d,
        16 * hex_value e + hex_value f)%Z.
Proof.
  intros Hh. simpl in Hh.
  repeat match type of Hh with
         | (_ && _) = true => let H := fresh "Hx" in apply andb_true_iff in Hh as [H Hh]
         end.
  unfold hex_to_rgb. cbn [list_ascii_of_string drop_while].
  change (is_hash "#"%char) with true. cbv iota.
  rewrite (is_hex_not_hash a) by assumption.
  cbn [take drop firstn skipn].
  rewrite !int16_hex_pair_value by assumption. reflexivity.
Qed.

(** X2: a colour made of the marker and six hexadecimal digits converts to
    the three channels that its digit pairs spell, the first digit of a pair
    counting sixteen times, and each channel is between 0 and 255. *)
Theorem six_digit_color_channels (a b c d e f : ascii) :
  forallb is_hex [a; b; c; d; e; f] = true ->
  exists r g b',
    hex_to_rgb (String "#" (String a (String b (String c (String d
                  (String e (String f EmptyString)))))))
    = Ok (r, g, b')
    /\ r = (16 * hex_value a + hex_value b)%Z
    /\ g = (16 * hex_value c + hex_value d)%Z
    /\ b' = (16 * hex_value e + hex_value f)%Z
    /\ (0 <= r <= 255)%Z /\ (0 <= g <= 255)%Z /\ (0 <= b' <= 255)%Z.
Proof.
  intros Hh. rewrite (hex_to_rgb_six _ _ _ _ _ _ Hh).
  simpl in Hh.
  repeat match type of Hh with
         | (_ && _) = true => let H := fresh "Hx" in apply andb_true_iff in Hh as [H Hh]
         end.
  repeat match goal with
         | H : is_hex ?x = true |- _ => apply hex_value_range in H
         end.
  do 3 eexists. split; [reflexivity|]. repeat split; lia.
Qed.

(** The theorem at the colour ["#8a2be2"]. *)
Lemma six_digit_color_channels_witness :
  forallb is_hex ["8"; "a"; "2"; "b"; "e"; "2"]%char = true
  /\ exists r g b',
       hex_to_rgb "#8a2be2" = Ok (r, g, b')
       /\ r = (16 * hex_value "8" + hex_value "a")%Z
       /\ g = (16 * hex_value "2" + hex_value "b")%Z
       /\ b' = (16 * hex_value "e" + hex_value "2")%Z
       /\ (0 <= r <= 255)%Z /\ (0 <= g <= 255)%Z /\ (0 <= b' <= 255)%Z.
Proof.
  split; [reflexivity|].
  apply (six_digit_color_channels "8" "a" "2" "b" "e" "2"). reflexivity.
Defined.

(** X3: a shorthand colour, once expanded, converts to channels that are
    seventeen times its digits: [#abc] stands for [(0xaa, 0xbb, 0xcc)]. *)
Theorem expanded_shorthand_channels (a b c : ascii) :
  forallb is_hex [a; b; c] = true ->
  hex_to_rgb (expand_color_shorthand (String "#" (String a (String b (String c EmptyString)))))
  = Ok (17 * hex_value a, 17 * hex_value b, 17 * hex_value c)%Z.
Proof.
  intros Hh. cbn [expand_color_shorthand].
  rewrite hex_to_rgb_six.
  - f_equal. f_equal; [f_equal|]; lia.
  - simpl in Hh. simpl.
    repeat match type of Hh with
           | (_ && _) = true => let H := fresh "Hx" in apply andb_true_iff in Hh as [H Hh]
           end.
    now rewrite Hx, Hx0, Hx1.
Qed.

(** The theorem at the colour ["#fA0"]. *)
Lemma expanded_shorthand_channels_witness :
  forallb is_hex ["f"; "A"; "0"]%char = true
  /\ hex_to_rgb (expand_color_shorthand "#fA0")
     = Ok (17 * hex_value "f", 17 * hex_value "A", 17 * hex_value "0")%Z.
Proof.
  split; [reflexivity|].
  apply (expanded_shorthand_channels "f" "A" "0"). reflexivity.
Defined.

(** ** Errors of the recommender *)

Lemma map_result_hex_raise palette :
  Exists (fun color => hex_to_rgb color = Raise ValueError) palette ->
  map_result hex_to_rgb palette = Raise ValueError.
Proof.
  induction palette as [|color palette IH]; intros Hex; [inversion Hex|]. simpl.
  destruct (hex_to_rgb color) as [v|e] eqn:Hc; simpl.
  - rewrite IH; [reflexivity|]. inversion Hex as [? ? Hc'|]; subst; [congruence|assumption].
  - now rewrite (hex_to_rgb_raises _ _ Hc).
Qed.

Lemma convert_or_raise palette :
  Forall (fun color => exists v, hex_to_rgb color = Ok v) palette
  \/ Exists (fun color => hex_to_rgb color = Raise ValueError) palette.
Proof.
  induction palette as [|color palette [IH|IH]]; [left; constructor| |].
  - destruct (hex_to_rgb color) as [v|e] eqn:Hc.
    + left. constructor; eauto.
    + right. left. now rewrite (hex_to_rgb_raises _ _ Hc) in Hc.
  - right. now right.
Qed.

(** On a palette that is not empty and whose colours all convert the
    recommender returns, and returns white or black with its reason. *)
Lemma recommend_returns existing :
  existing <> [] ->
  Forall (fun color => exists v, hex_to_rgb color = Ok v) existing ->
  recommend_contrasting_color existing = Ok ("#ffffff", white_reason)
  \/ recommend_contrasting_color existing = Ok ("#000000", black_reason).
Proof.
  intros Hne Hall.
  destruct (darkest_total existing Hne Hall) as [d Hd].
  destruct (darkest_Ok _ _ Hd) as (color & _ & Hrgb).
  destruct d as [[r g] b].
  apply hex_to_rgb_range in Hrgb as (Hr & Hg & Hb).
  pose proof (luminance_decided r g b Hr Hg Hb) as Hdec.
  unfold recommend_contrasting_color. rewrite Hd. cbn [bind].
  destruct (rainbow_pass_Ok (r, g, b)) as (st & -> & _). cbn [bind].
  unfold white_black_check. unfold Checks.decided in Hdec.
  set (l := relative_luminance (r, g, b)) in *.
  destruct (PrimFloat.ltb l 254.5).
  - left. rewrite Hdec. now rewrite conclude_select.
  - right. apply andb_true_iff in Hdec as [Hw%negb_true_iff Hk].
    rewrite Hw, Hk. now rewrite conclude_select.
Qed.

(** X4: the recommender raises [IndexError] exactly on the empty palette,
    and [ValueError] exactly when some colour of the palette does not
    convert; on every other palette it returns. *)
Theorem recommend_errors (palette : list string) :
  (recommend_contrasting_color palette = Raise IndexError <-> palette = [])
  /\ (recommend_contrasting_color palette = Raise ValueError
      <-> Exists (fun color => hex_to_rgb color = Raise ValueError) palette).
Proof.
  destruct (convert_or_raise palette) as [Hall|Hex].
  - destruct palette as [|color palette].
    + split; split; try reflexivity; [discriminate|]. intros Hex. inversion Hex.
    + assert (Hne : color :: palette <> []) by discriminate.
      assert (Hno : ~ Exists (fun c => hex_to_rgb c = Raise ValueError) (color :: palette)).
      { intros Hex. apply Exists_exists in Hex as (c & Hc & Hraise).
        apply (proj1 (Forall_forall _ _) Hall) in Hc as [v Hv]. congruence. }
      destruct (recommend_returns _ Hne Hall) as [-> | ->];
        split; split; try discriminate; intros; contradiction.
  - assert (Hv : recommend_contrasting_color palette = Raise ValueError).
    { unfold recommend_contrasting_color, darkest.
      now rewrite (map_result_hex_raise _ Hex). }
    rewrite Hv. split; split; try discriminate; auto.
    intros ->. inversion Hex.
Qed.

(** X5: a colour with fewer than five characters after its leading markers,
    such as a shorthand that was not expanded, does not convert, and a
    palette that holds one makes the recommender raise [ValueError]. *)
Theorem short_color_raises_ValueError (palette : list string) (color : string) :
  In color palette ->
  length (drop_while is_hash (list_ascii_of_string color)) < 5 ->
  hex_to_rgb color = Raise ValueError
  /\ recommend_contrasting_color palette = Raise ValueError.
Proof.
  intros Hin Hlen.
  assert (Hc : hex_to_rgb color = Raise ValueError).
  { unfold hex_to_rgb.
    set (h := drop_while is_hash (list_ascii_of_string color)) in *.
    assert (Hd : drop 4 h = []) by (apply drop_ge; lia).
    rewrite Hd. change (Int16.int16 (take 2 [])) with (@Raise Z ValueError).
    destruct (Int16.int16 (take 2 h)) as [r|e1] eqn:Hr; simpl.
    2:{ now rewrite (int16_raises _ _ Hr). }
    destruct (Int16.int16 (take 2 (drop 2 h))) as [g|e2] eqn:Hg; simpl; [reflexivity|].
    now rewrite (int16_raises _ _ Hg). }
  split; [exact Hc|].
  unfold recommend_contrasting_color, darkest.
  rewrite map_result_hex_raise; [reflexivity|].
  apply Exists_exists. exists color. split; [now apply list_elem_of_In|exact Hc].
Qed.

(** The theorem at the palette ["#336699"; "#abc"]. *)
Lemma short_color_raises_ValueError_witness :
  In "#abc" ["#336699"; "#abc"]
  /\ length (drop_while is_hash (list_ascii_of_string "#abc")) < 5
  /\ hex_to_rgb "#abc" = Raise ValueError
  /\ recommend_contrasting_color ["#336699"; "#abc"] = Raise ValueError.
Proof.
  assert (Hin : In "#abc" ["#336699"; "#abc"]) by (right; left; reflexivity).
  assert (Hlen : length (drop_while is_hash (list_ascii_of_string "#abc")) < 5)
    by (vm_compute; lia).
  split; [exact Hin|]. split; [exact Hlen|].
  exact (short_color_raises_ValueError ["#336699"; "#abc"] "#abc" Hin Hlen).
Defined.

(** X6: the recommender does not look at the case of the letters: a palette
    and the palette of its lowercase spellings get the same result. *)
Theorem recommend_ignores_case (palette : list string) :
  recommend_contrasting_color (map lower palette) = recommend_contrasting_color palette.
Proof.
  unfold recommend_contrasting_color, darkest.
  replace (map_result hex_to_rgb (map lower palette))
    with (map_result hex_to_rgb palette); [reflexivity|].
  induction palette as [|color palette IH]; simpl; [reflexivity|].
  now rewrite hex_to_rgb_lower, IH.
Qed.

(** ** The order of the ranking *)

Section Ranking.

Implicit Types (t : list (string * nat)) (c k : string) (l colors : list string).

Lemma counter_add_entry c t k m :
  NoDup (map fst t) -> In (k, m) (counter_add c t) ->
  (k <> c /\ In (k, m) t)
  \/ (k = c /\ ((exists m', In (c, m') t /\ m = S m')
                \/ (~ In c (map fst t) /\ m = 1))).
Proof.
  induction t as [|[k' n'] t IH]; simpl; intros Hnd Hin.
  - destruct Hin as [[= <- <-]|[]]. right. split; [reflexivity|]. right. tauto.
  - apply NoDup_cons in Hnd as [Hk' Hnd]. rewrite list_elem_of_In in Hk'.
    destruct (String.eqb_spec k' c) as [->|Hne].
    + destruct Hin as [[= <- <-]|Hin].
      * right. split; [reflexivity|]. left. exists n'. auto.
      * left. split; [|auto]. intros ->. apply Hk', in_map_iff. now exists (c, m).
    + destruct Hin as [[= <- <-]|Hin]; [left; auto|].
      destruct (IH Hnd Hin) as [[? ?]|[-> [(m' & ? & ->)|[Hno ->]]]].
      * left. auto.
      * right. split; [reflexivity|]. left. exists m'. auto.
      * right. split; [reflexivity|]. right. split; [|reflexivity].
        intros [?|?]; [congruence|contradiction].
Qed.

Lemma Counter_snoc l c : Counter (l ++ [c]) = counter_add c (Counter l).
Proof. unfold Counter. now rewrite fold_left_app. Qed.

Lemma Counter_keys_elem l k : In k (map fst (Counter l)) <-> In k l.
Proof.
  induction l as [|c l IH] using rev_ind; [simpl; tauto|].
  rewrite Counter_snoc, counter_add_keys_elem, IH, in_app_iff. simpl. intuition.
Qed.

(** A [Counter] holds, for each key, the number of its occurrences. *)
Lemma Counter_entry l k m : In (k, m) (Counter l) -> m = occurrences l k.
Proof.
  unfold occurrences.
  revert k m; induction l as [|c l IH] using rev_ind; intros k m; [intros []|].
  rewrite Counter_snoc. intros Hin.
  apply counter_add_entry in Hin; [|apply Counter_keys].
  rewrite count_occ_app. simpl.
  destruct Hin as [[Hne Hin]|[-> [(m' & Hin & ->)|[Hno ->]]]].
  - rewrite (IH _ _ Hin). destruct (string_dec c k); [congruence|lia].
  - rewrite (IH _ _ Hin). destruct (string_dec c c); [lia|congruence].
  - rewrite Counter_keys_elem in Hno.
    apply (count_occ_not_In string_dec) in Hno. rewrite Hno.
    destruct (string_dec c c); [lia|congruence].
Qed.

Lemma occurrences_filter (p : string -> bool) l k :
  p k = true -> occurrences (List.filter p l) k = occurrences l k.
Proof.
  unfold occurrences.
  intros Hk. induction l as [|c l IH]; simpl; [reflexivity|].
  destruct (string_dec c k) as [->|Hne].
  - rewrite Hk. simpl. destruct (string_dec k k); [|congruence]. now rewrite IH.
  - destruct (p c); simpl; [|exact IH].
    destruct (string_dec c k); [congruence|exact IH].
Qed.

Lemma insert_desc_sorted x t :
  StronglySorted by_count t -> StronglySorted by_count (insert_desc x t).
Proof.
  induction 1 as [|y t Hs IH Hy]; simpl; [repeat constructor|].
  destruct (Nat.ltb_spec (snd x) (snd y)).
  - constructor; [exact IH|].
    rewrite insert_desc_Permutation. constructor; [unfold by_count; lia|exact Hy].
  - constructor; [now constructor|].
    constructor; [unfold by_count; lia|].
    eapply Forall_impl; [exact Hy|]. unfold by_count. intros; lia.
Qed.

Lemma sorted_desc_sorted t : StronglySorted by_count (sorted_desc t).
Proof.
  induction t as [|x t IH]; simpl; [constructor|]. now apply insert_desc_sorted.
Qed.

(** The table that [get_top_colors] ranks: its keys are the colours that
    pass the filter, each with the number of its occurrences in the
    input. *)
Lemma ranked_table colors :
  let ranked :=
    sorted_desc (Counter (List.filter (fun color => negb (is_filtered color)) colors)) in
  StronglySorted by_count ranked
  /\ NoDup (map fst ranked)
  /\ (forall k, In k (map fst ranked) <-> In k colors /\ is_filtered k = false)
  /\ (forall k m, In (k, m) ranked -> m = occurrences colors k).
Proof.
  set (kept := List.filter (fun color => negb (is_filtered color)) colors).
  intros ranked. subst ranked.
  pose proof (sorted_desc_Permutation (Counter kept)) as Hp.
  assert (Hkeys : forall k, In k (map fst (sorted_desc (Counter kept)))
                            <-> In k colors /\ is_filtered k = false).
  { intros k. rewrite <- !list_elem_of_In, Hp, list_elem_of_In, Counter_keys_elem.
    unfold kept. rewrite filter_In, negb_true_iff, list_elem_of_In. tauto. }
  split; [apply sorted_desc_sorted|].
  split; [rewrite Hp; apply Counter_keys|].
  split; [exact Hkeys|].
  intros k m Hin.
  assert (Hk : is_filtered k = false).
  { apply (Hkeys k), in_map_iff. now exists (k, m). }
  apply list_elem_of_In in Hin. rewrite Hp in Hin. apply list_elem_of_In in Hin.
  rewrite (Counter_entry _ _ _ Hin). apply occurrences_filter. now rewrite Hk.
Qed.

Lemma sorted_keys_by_occurrences colors t :
  (forall k m, In (k, m) t -> m = occurrences colors k) ->
  StronglySorted by_count t ->
  StronglySorted (fun a b => occurrences colors b <= occurrences colors a) (map fst t).
Proof.
  intros Hm. induction 1 as [|[k m] t Hs IH Hk]; simpl; constructor.
  - apply IH. intros k' m' Hin. apply Hm. now right.
  - apply Forall_forall. intros k' Hin%list_elem_of_In.
    apply in_map_iff in Hin as ([k2 m2] & <- & Hin). simpl.
    rewrite Forall_forall in Hk. pose proof (Hk _ (proj2 (list_elem_of_In _ _) Hin)) as Hle.
    unfold by_count in Hle. simpl in Hle.
    rewrite <- (Hm k m) by now left. rewrite <- (Hm k2 m2) by now right. exact Hle.
Qed.

(** X7: the palette of [get_top_colors] is in the order of the counts: no
    colour occurs in the input more often than a colour that comes before
    it in the palette; and every colour of the palette occurs in the
    input. *)
Theorem get_top_colors_ordered (colors : list string) (n : Z) :
  StronglySorted (fun a b => occurrences colors b <= occurrences colors a)
    (get_top_colors colors n)
  /\ Forall (fun c => 0 < occurrences colors c) (get_top_colors colors n).
Proof.
  destruct (ranked_table colors) as (Hs & _ & Hkeys & Hm).
  unfold get_top_colors, most_common.
  set (ranked := sorted_desc (Counter _)) in *.
  assert (Hsplit : ranked = take (Z.to_nat n) ranked ++ drop (Z.to_nat n) ranked)
    by now rewrite take_drop.
  split.
  - apply sorted_keys_by_occurrences.
    + intros k m Hin. apply Hm.
      apply list_elem_of_In. eapply elem_of_sublist; [|apply sublist_take].
      apply list_elem_of_In, Hin.
    + rewrite Hsplit in Hs. now apply StronglySorted_app_1_l in Hs.
  - apply Forall_forall. intros c Hc.
    apply (count_occ_In string_dec). apply Hkeys.
    rewrite <- firstn_map in Hc.
    apply list_elem_of_In. eapply elem_of_sublist; [exact Hc|apply sublist_take].
Qed.

(** X8: the palette holds the most frequent colours: a colour of the input
    that passes the filter and is left out of the palette occurs at most as
    often as every colour of the palette. *)
Theorem get_top_colors_most_frequent (colors : list string) (n : Z) (c c' : string) :
  In c colors -> is_filtered c = false ->
  ~ In c (get_top_colors colors n) ->
  In c' (get_top_colors colors n) ->
  occurrences colors c <= occurrences colors c'.
Proof.
  destruct (ranked_table colors) as (Hs & _ & Hkeys & Hm).
  unfold get_top_colors, most_common.
  set (ranked := sorted_desc (Counter _)) in *.
  intros Hc Hf Hout Hin'.
  assert (Hsplit : ranked = take (Z.to_nat n) ranked ++ drop (Z.to_nat n) ranked)
    by now rewrite take_drop.
  apply in_map_iff in Hin' as ([k' m'] & <- & Hin'). simpl.
  assert (Hk : In c (map fst ranked)) by now apply Hkeys.
  apply in_map_iff in Hk as ([k m] & <- & Hk). simpl in *.
  rewrite Hsplit in Hk. apply in_app_or in Hk as [Hk|Hk].
  { exfalso. apply Hout, in_map_iff. now exists (k, m). }
  rewrite Hsplit in Hs.
  pose proof (StronglySorted_app_1_elem_of _ _ _ _ _ Hs
                (proj2 (list_elem_of_In _ _) Hin') (proj2 (list_elem_of_In _ _) Hk)) as Hle.
  unfold by_count in Hle. simpl in Hle.
  assert (Hm1 : m = occurrences colors k).
  { apply Hm. rewrite Hsplit. apply in_or_app. now right. }
  assert (Hm2 : m' = occurrences colors k').
  { apply Hm. rewrite Hsplit. apply in_or_app. now left. }
  lia.
Qed.

(** The theorem on seven colours with N = 2, at a colour that is left out
    and a colour of the palette. *)
Lemma get_top_colors_most_frequent_witness :
  let colors := ["#aaaaaa"; "#FFF"; "#bbbbbb"; "#bbbbbb"; "#000000"; "#cccccc"; "#aaaaaa"] in
  In "#cccccc" colors /\ is_filtered "#cccccc" = false
  /\ ~ In "#cccccc" (get_top_colors colors 2)
  /\ In "#bbbbbb" (get_top_colors colors 2)
  /\ occurrences colors "#cccccc" <= occurrences colors "#bbbbbb".
Proof.
  intros colors.
  assert (H1 : In "#cccccc" colors) by (vm_compute; tauto).
  assert (H2 : is_filtered "#cccccc" = false) by reflexivity.
  assert (H3 : ~ In "#cccccc" (get_top_colors colors 2)).
  { vm_compute. intros [H|[H|[]]]; discriminate H. }
  assert (H4 : In "#bbbbbb" (get_top_colors colors 2)) by (vm_compute; tauto).
  repeat split; try assumption.
  exact (get_top_colors_most_frequent colors 2 "#cccccc" "#bbbbbb" H1 H2 H3 H4).
Defined.

(** X9: when the target count is at least the number of distinct colours
    that pass the filter, none of them is lost: the palette holds exactly
    the colours of the input that are not filtered. *)
Theorem get_top_colors_complete (colors : list string) (n : Z) :
  (Z.of_nat (length (remove_dups
                       (List.filter (fun color => negb (is_filtered color)) colors))) <= n)%Z ->
  forall c, In c (get_top_colors colors n) <-> In c colors /\ is_filtered c = false.
Proof.
  destruct (ranked_table colors) as (_ & Hnd & Hkeys & _).
  unfold get_top_colors, most_common.
  set (kept := List.filter (fun color => negb (is_filtered color)) colors) in *.
  set (ranked := sorted_desc (Counter kept)) in *.
  intros Hn c.
  assert (Hlen : length ranked = length (remove_dups kept)).
  { rewrite <- (length_map fst ranked). apply Permutation_length.
    apply NoDup_Permutation; [exact Hnd|apply NoDup_remove_dups|].
    intros k. rewrite elem_of_remove_dups, !list_elem_of_In, Hkeys.
    unfold kept. rewrite filter_In, negb_true_iff. tauto. }
  rewrite take_ge by lia. apply Hkeys.
Qed.

(** The theorem on seven colours, three of them distinct and not filtered,
    with N = 5. *)
Lemma get_top_colors_complete_witness :
  let colors := ["#aaaaaa"; "#FFF"; "#bbbbbb"; "#bbbbbb"; "#000000"; "#cccccc"; "#aaaaaa"] in
  (Z.of_nat (length (remove_dups
                       (List.filter (fun color => negb (is_filtered color)) colors))) <= 5)%Z
  /\ forall c, In c (get_top_colors colors 5) <-> In c colors /\ is_filtered c = false.
Proof.
  intros colors.
  assert (Hn : (Z.of_nat (length (remove_dups
                   (List.filter (fun color => negb (is_filtered color)) colors))) <= 5)%Z)
    by (vm_compute; discriminate).
  split; [exact Hn|].
  exact (get_top_colors_complete colors 5 Hn).
Defined.

End Ranking.

(** ** The cap and the blocks of the button extractor *)

Lemma set_iter_length_distinct `{PySet} (l : list string) :
  length (set_iter l) = length (remove_dups l).
Proof.
  apply Permutation_length, NoDup_Permutation;
    [apply set_iter_NoDup|apply NoDup_remove_dups|].
  intros x. now rewrite set_iter_elem, elem_of_remove_dups.
Qed.

(** X10: when the inline styles and the button blocks spell at most four
    distinct colours (after expansion), the cap drops none: the button
    palette holds exactly the expansions of the tokens found, whatever the
    order of the set. *)
Theorem extract_button_colors_keeps_all `{PySet} (styles css_contents : list string) :
  length (remove_dups (map expand_color_shorthand
                         (button_color_tokens styles css_contents))) <= 4 ->
  forall c, In c (extract_button_colors styles css_contents)
            <-> exists tok, In tok (button_color_tokens styles css_contents)
                            /\ c = expand_color_shorthand tok.
Proof.
  intros Hlen c. unfold extract_button_colors.
  rewrite take_ge by (rewrite set_iter_length_distinct; exact Hlen).
  rewrite <- list_elem_of_In, set_iter_elem, list_elem_of_In, in_map_iff.
  split; intros (tok & ? & ?); exists tok; auto.
Qed.

(** The theorem at one inline style and one stylesheet, with the order
    [last_seen]. *)
Lemma extract_button_colors_keeps_all_witness :
  let styles := ["color:#abc"] in
  let css_contents := ["a{color:#111} button {color:#AABBCC; border:#abc}"] in
  length (remove_dups (map expand_color_shorthand
                         (button_color_tokens styles css_contents))) <= 4
  /\ forall c, In c (@extract_button_colors last_seen styles css_contents)
               <-> exists tok, In tok (button_color_tokens styles css_contents)
                               /\ c = expand_color_shorthand tok.
Proof.
  intros styles css_contents.
  assert (Hlen : length (remove_dups (map expand_color_shorthand
                           (button_color_tokens styles css_contents))) <= 4)
    by (vm_compute; lia).
  split; [exact Hlen|].
  exact (@extract_button_colors_keeps_all last_seen styles css_contents Hlen).
Defined.

Lemma scan_nil m k s :
  (forall a s', s = a ++ s' -> m s' = None) -> Re.scan m k s = [].
Proof.
  intros Hnone. destruct (Re.scan m k s) as [|tok l] eqn:E; [reflexivity|].
  destruct (scan_elem m k s tok) as (a & s' & Hs & Hm); [rewrite E; now left|].
  rewrite (Hnone _ _ Hs) in Hm. discriminate.
Qed.

Lemma findall_button_styles_no_rbrace css :
  forallb Re.not_rbrace (list_ascii_of_string css) = true ->
  findall_button_styles css = [].
Proof.
  intros Hno. unfold findall_button_styles, Re.findall.
  rewrite scan_nil; [reflexivity|].
  intros a s' Hs. destruct (Re.button_match s') as [blk|] eqn:Hm; [exfalso|reflexivity].
  destruct (button_match_Some _ _ Hm) as (kw & ws & body & r & -> & -> & _).
  rewrite Hs in Hno.
  repeat (rewrite forallb_app in Hno; simpl in Hno).
  rewrite !andb_false_r in Hno. simpl in Hno.
  now rewrite ?andb_false_r in Hno.
Qed.

(** X11: a stylesheet in which no closing brace occurs, such as one cut off
    inside its first rule, gives the button palette nothing: with no inline
    style the palette is empty. *)
Theorem unclosed_stylesheets_give_nothing `{PySet} (css_contents : list string) :
  Forall (fun css => forallb Re.not_rbrace (list_ascii_of_string css) = true) css_contents ->
  extract_button_colors [] css_contents = [].
Proof.
  intros Hall. unfold extract_button_colors, button_color_tokens. simpl.
  replace (flat_map _ css_contents) with (@nil string).
  - simpl. now rewrite set_iter_nil.
  - induction Hall as [|css l Hcss _ IH]; simpl; [reflexivity|].
    now rewrite (findall_button_styles_no_rbrace _ Hcss), <- IH.
Qed.

(** The theorem at a stylesheet cut off inside a button rule. *)
Lemma unclosed_stylesheets_give_nothing_witness :
  Forall (fun css => forallb Re.not_rbrace (list_ascii_of_string css) = true)
    ["button { color: #ff0000; background: #00f"]
  /\ @extract_button_colors last_seen [] ["button { color: #ff0000; background: #00f"] = [].
Proof.
  assert (Hall : Forall (fun css => forallb Re.not_rbrace (list_ascii_of_string css) = true)
                   ["button { color: #ff0000; background: #00f"])
    by (repeat constructor).
  split; [exact Hall|].
  exact (@unclosed_stylesheets_give_nothing last_seen _ Hall).
Defined.

(** ** Which tokens are colours *)

Section Tokens.

Import Re.

Lemma is_hex_word c : is_hex c = true -> is_word c = true.
Proof. destruct c as [[] [] [] [] [] [] [] []]; try discriminate; reflexivity. Qed.

Lemma hex_no_hash h :
  forallb is_hex h = true -> forallb (fun c => negb (is_hash c)) h = true.
Proof.
  induction h as [|c h IH]; simpl; [reflexivity|].
  intros [Hc Hh]%andb_true_iff. now rewrite (is_hex_not_hash c Hc), IH.
Qed.

Lemma scan_skip m k s : length s <= k -> scan m k s = [].
Proof.
  revert k; induction s as [|c s IH]; intros k Hk; simpl; [reflexivity|].
  destruct k as [|k]; simpl in Hk; [lia|]. apply IH. lia.
Qed.

Lemma scan_skip_app m p s : scan m (length p) (p ++ s) = scan m 0 s.
Proof.
  induction p as [|c p IH]; simpl; [|exact IH].
  destruct s; reflexivity.
Qed.

Lemma not_word_not_hex c : is_word c = false -> is_hex c = false.
Proof. destruct c as [[] [] [] [] [] [] [] []]; try discriminate; reflexivity. Qed.

(** The pattern on the marker followed by a run of hexadecimal digits that
    ends at the end of the text or before a character that is no word
    character: it matches when the run has three or six digits. *)
Lemma color_match_hex_run h tail :
  forallb is_hex h = true -> boundary_after tail = true ->
  color_match ("#"%char :: h ++ tail)
  = if (length h =? 3)%nat || (length h =? 6)%nat then Some ("#"%char :: h) else None.
Proof.
  intros Hh Htail.
  assert (Ht : tail = [] \/ exists x t, tail = x :: t /\ is_word x = false
                                        /\ is_hex x = false).
  { destruct tail as [|x t]; [now left|right]. exists x, t.
    simpl in Htail. apply negb_true_iff in Htail.
    auto using not_word_not_hex. }
  clear Htail.
  destruct h as [|a [|b [|c [|d [|e [|f [|g rest]]]]]]]; simpl in Hh;
    repeat match type of Hh with
           | (_ && _) = true =>
               let H := fresh "Hx" in apply andb_true_iff in Hh as [H Hh]
           end;
    repeat match goal with
           | H : is_hex ?x = true |- _ =>
               pose proof (is_hex_word x H); revert H
           end; intros;
    destruct Ht as [->|(x & t & -> & Hw & Hx')];
    cbn -[is_hex is_word];
    repeat match goal with
           | H : is_hex ?x = _ |- context [is_hex ?x] =>
               rewrite H; cbn -[is_hex is_word]
           | H : is_word ?x = _ |- context [is_word ?x] =>
               rewrite H; cbn -[is_hex is_word]
           end;
    rewrite ?app_nil_r; reflexivity.
Qed.

End Tokens.

(** X12: in a text that is the marker, then hexadecimal digits, then a rest
    that is empty or begins with a character that is no word character,
    and that holds no further marker, the digits are a colour when they are
    three or six, and the text holds no colour otherwise: four, five, seven
    or eight digits are not read as a colour, nor in part. *)
Theorem hex_run_is_color_iff_3_or_6 (h tail : list ascii) :
  forallb is_hex h = true ->
  Re.boundary_after tail = true ->
  forallb (fun c => negb (is_hash c)) tail = true ->
  extract_colors (string_of_list_ascii ("#"%char :: h ++ tail))
  = if (length h =? 3)%nat || (length h =? 6)%nat
    then [expand_color_shorthand (string_of_list_ascii ("#"%char :: h))]
    else [].
Proof.
  intros Hh Hb Htail. unfold extract_colors, findall_colors, Re.findall.
  rewrite list_ascii_of_string_of_list_ascii. cbn [Re.scan].
  rewrite (color_match_hex_run h tail Hh Hb).
  destruct ((length h =? 3)%nat || (length h =? 6)%nat).
  - cbn [length]. rewrite Nat.sub_1_r. cbn [Nat.pred].
    rewrite scan_skip_app.
    rewrite <- (app_nil_r tail), scan_color_prefix by exact Htail. reflexivity.
  - rewrite <- (app_nil_r (h ++ tail)), scan_color_prefix; [reflexivity|].
    rewrite forallb_app, hex_no_hash by exact Hh. exact Htail.
Qed.

(** The theorem at the eight digits of a colour with an alpha channel. *)
Lemma hex_run_is_color_iff_3_or_6_witness :
  forallb is_hex (list_ascii_of_string "ff8800cc") = true
  /\ Re.boundary_after (list_ascii_of_string "; margin:0") = true
  /\ forallb (fun c => negb (is_hash c)) (list_ascii_of_string "; margin:0") = true
  /\ extract_colors "#ff8800cc; margin:0" = [].
Proof.
  do 3 (split; [reflexivity|]).
  exact (hex_run_is_color_iff_3_or_6 (list_ascii_of_string "ff8800cc")
           (list_ascii_of_string "; margin:0") eq_refl eq_refl eq_refl).
Defined.

(** ** The empty palette and the analysis *)

Lemma filtered_or_kept (colors : list string) :
  Forall (fun c => is_filtered c = true) colors
  \/ Exists (fun c => is_filtered c = false) colors.
Proof.
  induction colors as [|c colors [IH|IH]]; [left; constructor| |right; now right].
  destruct (is_filtered c) eqn:Hc; [left; now constructor|right; now left].
Qed.

Lemma get_top_colors_nil_iff (colors : list string) (n : Z) :
  (0 < n)%Z ->
  get_top_colors colors n = [] <-> Forall (fun c => is_filtered c = true) colors.
Proof.
  intros Hn. destruct (ranked_table colors) as (_ & _ & Hkeys & _).
  unfold get_top_colors, most_common.
  set (ranked := sorted_desc (Counter _)) in *.
  split.
  - intros Hnil. apply Forall_forall. intros c Hc%list_elem_of_In.
    destruct (is_filtered c) eqn:Hf; [reflexivity|exfalso].
    assert (Hk : In c (map fst ranked)) by now apply Hkeys.
    destruct ranked as [|x ranked']; [exact Hk|].
    destruct (Z.to_nat n) as [|k] eqn:Ek; [lia|]. discriminate Hnil.
  - intros Hall. destruct ranked as [|[k m] ranked']; [now rewrite take_nil|exfalso].
    assert (Hk : In k colors /\ is_filtered k = false) by (apply Hkeys; now left).
    destruct Hk as [Hk Hf].
    rewrite Forall_forall in Hall.
    rewrite (Hall k) in Hf by now apply list_elem_of_In. discriminate.
Qed.

(** X13: for a target count of at least one, the palette of
    [get_top_colors] is empty exactly when every colour of the input is a
    spelling of pure white or pure black (an empty input included). *)
Theorem get_top_colors_empty_iff_all_filtered (colors : list string) (n : Z) :
  (0 < n)%Z ->
  get_top_colors colors n = [] <-> Forall (fun c => is_filtered c = true) colors.
Proof. apply get_top_colors_nil_iff. Qed.

(** The theorem at four spellings of white and black, with N = 5. *)
Lemma get_top_colors_empty_iff_all_filtered_witness :
  (0 < 5)%Z
  /\ (get_top_colors ["#FFF"; "#000000"; "#ffffff"; "#FfFfFf"] 5 = []
      <-> Forall (fun c => is_filtered c = true) ["#FFF"; "#000000"; "#ffffff"; "#FfFfFf"]).
Proof.
  split; [reflexivity|].
  apply (get_top_colors_empty_iff_all_filtered ["#FFF"; "#000000"; "#ffffff"; "#FfFfFf"] 5).
  reflexivity.
Defined.

Lemma collect_from (fetched : list (option string)) (acc : list string * list string) :
  Forall (fun c => full_hex c = true) (fst acc) ->
  Forall (fun c => full_hex c = true)
    (fst (fold_left
            (fun '(all_colors, css_contents) css_content =>
               match css_content with
               | Some text =>
                   if fetched_text css_content
                   then (all_colors ++ extract_colors text, css_contents ++ [text])
                   else (all_colors, css_contents)
               | None => (all_colors, css_contents)
               end)
            fetched acc)).
Proof.
  revert acc; induction fetched as [|[text|] fetched IH]; intros [all css] Hacc;
    simpl; [exact Hacc| |apply IH, Hacc].
  destruct (negb (String.eqb text "")); apply IH; simpl; [|exact Hacc].
  apply Forall_app. split; [exact Hacc|].
  apply Forall_forall. intros c Hc%list_elem_of_In.
  eapply extract_colors_full_hex; eauto.
Qed.

Lemma collect_full_hex (fetched : list (option string)) :
  Forall (fun c => full_hex c = true) (fst (collect fetched)).
Proof. apply (collect_from fetched ([], [])). constructor. Qed.

(** X14: the analysis of a page never raises [ValueError].  When every
    colour collected from the stylesheets is a spelling of white or black,
    or none was collected, it raises [IndexError]; otherwise the primary
    palette is not empty and the recommendation is white or black, each
    with its reason. *)
Theorem analyze_outcome `{PySet} (styles : list string) (fetched : list (option string)) :
  match analyze styles fetched with
  | Ok (primary_colors, button_colors, recommended_color) =>
      Exists (fun c => is_filtered c = false) (fst (collect fetched))
      /\ primary_colors = get_top_colors (fst (collect fetched)) 5
      /\ primary_colors <> []
      /\ button_colors = extract_button_colors styles (snd (collect fetched))
      /\ (recommended_color = ("#ffffff", white_reason)
          \/ recommended_color = ("#000000", black_reason))
  | Raise e =>
      e = IndexError /\ Forall (fun c => is_filtered c = true) (fst (collect fetched))
  end.
Proof.
  pose proof (collect_full_hex fetched) as Hhex.
  unfold analyze. destruct (collect fetched) as [all_colors css_contents]. simpl in *.
  unfold recommend_button_color.
  destruct (filtered_or_kept all_colors) as [Hall|Hex].
  - rewrite (proj2 (get_top_colors_nil_iff all_colors 5 eq_refl) Hall), set_iter_nil.
    simpl. auto.
  - assert (Hne : get_top_colors all_colors 5 <> []).
    { intros Hnil%(get_top_colors_nil_iff all_colors 5 eq_refl).
      apply Exists_exists in Hex as (c & Hc & Hf).
      rewrite Forall_forall in Hnil. rewrite (Hnil c Hc) in Hf. discriminate. }
    set (primary := get_top_colors all_colors 5) in *.
    assert (Hne' : set_iter primary <> []).
    { intros Hnil. destruct primary as [|c p]; [congruence|].
      assert (Hc : c ∈ set_iter (c :: p)) by (apply set_iter_elem; left).
      rewrite Hnil in Hc. now apply elem_of_nil in Hc. }
    assert (Hconv : Forall (fun color => exists v, hex_to_rgb color = Ok v)
                      (set_iter primary)).
    { apply Forall_forall. intros c Hc.
      apply (proj1 (set_iter_elem primary c)) in Hc.
      apply (proj1 (list_elem_of_In primary c)) in Hc.
      apply get_top_colors_elem in Hc as [Hc _].
      apply full_hex_converts.
      rewrite Forall_forall in Hhex. now apply Hhex, list_elem_of_In. }
    destruct (recommend_returns _ Hne' Hconv) as [-> | ->]; simpl; auto 10.
Qed.

(** ** What [hex_to_rgb] reads *)

Lemma list_ascii_of_string_app (s1 s2 : string) :
  list_ascii_of_string (s1 +:+ s2) = list_ascii_of_string s1 ++ list_ascii_of_string s2.
Proof. induction s1 as [|c s1 IH]; simpl; [reflexivity|]. now rewrite IH. Qed.

Lemma drop_while_app (p : ascii -> bool) (l1 l2 : list ascii) :
  drop_while p l1 <> [] -> drop_while p (l1 ++ l2) = drop_while p l1 ++ l2.
Proof.
  induction l1 as [|c l1 IH]; simpl; [congruence|].
  destruct (p c); [exact IH|reflexivity].
Qed.

(** X15: [hex_to_rgb] reads the first six characters after the leading
    markers and nothing else: whatever is appended to a colour that has six
    characters or more after its markers, the channels, or the error, are
    the same. *)
Theorem hex_to_rgb_reads_six (color extra : string) :
  6 <= length (drop_while is_hash (list_ascii_of_string color)) ->
  hex_to_rgb (color +:+ extra) = hex_to_rgb color.
Proof.
  intros Hlen. unfold hex_to_rgb.
  rewrite list_ascii_of_string_app, drop_while_app
    by (intros Hnil; rewrite Hnil in Hlen; simpl in Hlen; lia).
  set (h := drop_while is_hash (list_ascii_of_string color)) in *.
  set (t := list_ascii_of_string extra).
  rewrite !drop_app_le by lia.
  rewrite !take_app_le by (rewrite ?length_drop; lia).
  reflexivity.
Qed.

(** The theorem at a colour followed by an alpha channel. *)
Lemma hex_to_rgb_reads_six_witness :
  6 <= length (drop_while is_hash (list_ascii_of_string "#ff8800"))
  /\ hex_to_rgb ("#ff8800" +:+ "cc") = hex_to_rgb "#ff8800".
Proof.
  assert (Hlen : 6 <= length (drop_while is_hash (list_ascii_of_string "#ff8800")))
    by (vm_compute; lia).
  split; [exact Hlen|].
  exact (hex_to_rgb_reads_six "#ff8800" "cc" Hlen).
Defined.

(** ** The darkest colour *)

Section FloatOrder.

Lemma SFltb_key x y :
  SFltb x y = true <->
  exists a b, SFkey x = Some a /\ SFkey y = Some b /\ lex3 a b.
Proof.
  unfold SFltb, SFcompare.
  destruct x as [[]|[]| |[] m e], y as [[]|[]| |[] m' e']; simpl;
    try (split; [discriminate|intros (a & b & [= <-] & [= <-] & H); simpl in H; lia]);
    try (split; [discriminate|intros (a & b & H & _); discriminate H]);
    try (split; [discriminate|intros (a & b & _ & H & _); discriminate H]);
    try (split; [intros _; do 2 eexists; repeat split; simpl; lia|reflexivity]).
  all: change (Pos.compare_cont Eq m m') with (Pos.compare m m').
  all: destruct (Z.compare_spec e e'), (Pos.compare_spec m m'); simpl;
    (split; [try discriminate; intros _; do 2 eexists; repeat split; simpl; lia
            |intros (a & b & [= <-] & [= <-] & Hlex); simpl in Hlex;
             try reflexivity; lia]).
Qed.

Lemma SFkey_num x : x <> S754_nan -> exists a, SFkey x = Some a.
Proof. destruct x as [[]|[]| |[] ? ?]; intros Hx; try congruence; eauto. Qed.

Lemma float_ltb_irrefl x : PrimFloat.ltb x x = false.
Proof.
  rewrite FloatAxioms.ltb_spec. destruct (SFltb (Prim2SF x) (Prim2SF x)) eqn:E; [|reflexivity].
  apply SFltb_key in E as ([[a1 a2] a3] & [[b1 b2] b3] & Ha & Hb & Hlex).
  rewrite Ha in Hb. injection Hb as <- <- <-. simpl in Hlex. lia.
Qed.

Lemma float_ltb_asym x y : PrimFloat.ltb x y = true -> PrimFloat.ltb y x = false.
Proof.
  rewrite !FloatAxioms.ltb_spec.
  intros ([[a1 a2] a3] & [[b1 b2] b3] & Ha & Hb & Hlex)%SFltb_key.
  destruct (SFltb (Prim2SF y) (Prim2SF x)) eqn:E; [|reflexivity].
  apply SFltb_key in E as ([[c1 c2] c3] & [[d1 d2] d3] & Hc & Hd & Hlex').
  rewrite Hb in Hc. rewrite Ha in Hd.
  injection Hc as <- <- <-. injection Hd as <- <- <-. simpl in *. lia.
Qed.

(** A number [y] is above [x] or below [z] whenever [x < z]. *)
Lemma float_ltb_between x y z :
  is_num y -> PrimFloat.ltb x z = true ->
  PrimFloat.ltb x y = true \/ PrimFloat.ltb y z = true.
Proof.
  rewrite !FloatAxioms.ltb_spec.
  intros Hy ([[a1 a2] a3] & [[c1 c2] c3] & Ha & Hc & Hlex)%SFltb_key.
  destruct (SFkey_num _ Hy) as [[[b1 b2] b3] Hb].
  simpl in Hlex.
  assert (Hcases : lex3 (a1, a2, a3) (b1, b2, b3) \/ lex3 (b1, b2, b3) (c1, c2, c3))
    by (simpl; lia).
  destruct Hcases; [left|right]; apply SFltb_key; eauto 6.
Qed.

Lemma float_ltb_num x y : PrimFloat.ltb x y = true -> is_num x /\ is_num y.
Proof.
  rewrite FloatAxioms.ltb_spec. intros (a & b & Ha & Hb & _)%SFltb_key.
  unfold is_num. split; intros E; rewrite E in *; discriminate.
Qed.

Lemma sub_num x y : is_num (x - y)%float -> is_num x.
Proof.
  unfold is_num. rewrite FloatAxioms.sub_spec. intros Hn Hx. apply Hn. rewrite Hx.
  unfold SF64sub, SFsub. now destruct (Prim2SF y).
Qed.

Lemma abs_num x : is_num (PrimFloat.abs x) -> is_num x.
Proof.
  unfold is_num. rewrite FloatAxioms.abs_spec. intros Hn Hx. apply Hn. now rewrite Hx.
Qed.

(** A luminance on which the white and black tests come out as [decided]
    says is a number. *)
Lemma decided_num w k l : Checks.decided w k l = true -> is_num l.
Proof.
  unfold Checks.decided. destruct (PrimFloat.ltb l 254.5) eqn:E.
  - intros _. now apply float_ltb_num in E.
  - intros [_ Hk]%andb_true_iff.
    apply float_ltb_num in Hk as [_ Hk]. now apply abs_num, sub_num in Hk.
Qed.

(** The head of a list sorted by a key whose values are numbers: no element
    has a smaller key. *)
Lemma sorted_head_least {A} (key : A -> float) (l : list A) h t :
  Forall (fun a => is_num (key a)) l ->
  sorted key l = h :: t ->
  Forall (fun a => PrimFloat.ltb (key a) (key h) = false) l.
Proof.
  intros Hnum. revert h t.
  induction Hnum as [|x l Hx Hnum IH]; intros h t; simpl; [discriminate|].
  destruct (sorted key l) as [|y t'] eqn:Hs; simpl.
  - intros [= <- <-]. constructor; [apply float_ltb_irrefl|].
    pose proof (sorted_Permutation key l) as Hp. rewrite Hs in Hp.
    apply Permutation_nil_l in Hp. subst l. constructor.
  - specialize (IH y t' eq_refl).
    assert (Hy : is_num (key y)).
    { rewrite Forall_forall in Hnum. apply Hnum.
      rewrite <- (sorted_Permutation key l), Hs. left. }
    destruct (PrimFloat.ltb (key y) (key x)) eqn:E; intros [= <- <-].
    + constructor; [now apply float_ltb_asym|exact IH].
    + constructor; [apply float_ltb_irrefl|].
      eapply Forall_impl; [exact IH|]. simpl. intros a Ha.
      destruct (PrimFloat.ltb (key a) (key x)) eqn:Ea; [|reflexivity].
      destruct (float_ltb_between _ _ _ Hy Ea); congruence.
Qed.

End FloatOrder.

(** The luminance of a colour that converts is a number. *)
Lemma luminance_num color v : hex_to_rgb color = Ok v -> is_num (relative_luminance v).
Proof.
  destruct v as [[r g] b]. intros (Hr & Hg & Hb)%hex_to_rgb_range.
  eapply decided_num, luminance_decided; eassumption.
Qed.

(** The darkest colour is an input colour of least luminance: no colour of
    the palette has a smaller one. *)
Lemma darkest_least existing d :
  darkest existing = Ok d ->
  forall color v, color ∈ existing -> hex_to_rgb color = Ok v ->
    PrimFloat.ltb (relative_luminance v) (relative_luminance d) = false.
Proof.
  unfold darkest.
  destruct (map_result hex_to_rgb existing) as [rgbs|] eqn:Hm; [|discriminate]. simpl.
  apply map_result_inv in Hm.
  destruct (sorted relative_luminance rgbs) as [|h t] eqn:Hs; [discriminate|].
  intros [= ->] color v Hin Hv.
  assert (Hnum : Forall (fun a => is_num (relative_luminance a)) rgbs).
  { apply Forall_forall. intros a Ha.
    apply list_elem_of_lookup in Ha as [i Hi].
    destruct (Forall2_lookup_r _ _ _ _ _ Hm Hi) as (c & _ & Hc).
    eapply luminance_num, Hc. }
  pose proof (sorted_head_least _ _ _ _ Hnum Hs) as Hleast.
  apply list_elem_of_lookup in Hin as [i Hi].
  destruct (Forall2_lookup_l _ _ _ _ _ Hm Hi) as (v' & Hv' & Hc).
  rewrite Hv in Hc. injection Hc as <-.
  rewrite Forall_forall in Hleast. apply Hleast.
  eapply list_elem_of_lookup_2, Hv'.
Qed.

(** C4, as the claim states it, fails on a palette that is not empty but
    holds a colour that does not convert: on ["#abc"] the third slice of
    [hex_to_rgb] is empty and the recommender raises [ValueError], returning
    neither white nor black. *)
Lemma unexpanded_palette_raises :
  ["#abc"] <> []
  /\ hex_to_rgb "#abc" = Raise ValueError
  /\ recommend_contrasting_color ["#abc"] = Raise ValueError.
Proof. repeat split; discriminate. Qed.

(** C4, amended: on a palette that is not empty and whose colours all
    convert (as every colour of six digits does), the darkest colour is an
    input colour of least luminance, and the recommendation is white with
    its reason when that luminance is below 254.5, and black with its reason
    otherwise.  So the result is white exactly when some colour of the
    palette has a luminance below 254.5, and black exactly when none has;
    white and black are none of the rainbow codes nor the default. *)
Theorem recommends_white_or_black (existing : list string) :
  existing <> [] ->
  Forall (fun color => exists v, hex_to_rgb color = Ok v) existing ->
  (exists d,
      darkest existing = Ok d
      /\ (exists color, color ∈ existing /\ hex_to_rgb color = Ok d)
      /\ (forall color v, color ∈ existing -> hex_to_rgb color = Ok v ->
            PrimFloat.ltb (relative_luminance v) (relative_luminance d) = false)
      /\ recommend_contrasting_color existing
         = Ok (if PrimFloat.ltb (relative_luminance d) 254.5
               then ("#ffffff", white_reason)
               else ("#000000", black_reason)))
  /\ (recommend_contrasting_color existing = Ok ("#ffffff", white_reason)
      <-> Exists (fun color => exists v, hex_to_rgb color = Ok v
                    /\ PrimFloat.ltb (relative_luminance v) 254.5 = true) existing)
  /\ (recommend_contrasting_color existing = Ok ("#000000", black_reason)
      <-> Forall (fun color => forall v, hex_to_rgb color = Ok v ->
                    PrimFloat.ltb (relative_luminance v) 254.5 = false) existing)
  /\ Forall (fun code => code <> "#ffffff" /\ code <> "#000000")
       (default_color :: map snd rainbow_colors).
Proof.
  intros Hne Hall.
  destruct (darkest_total existing Hne Hall) as [d Hd].
  destruct (darkest_Ok _ _ Hd) as (cd & Hcd & Hrgb).
  pose proof (darkest_least _ _ Hd) as Hleast.
  assert (Hrec : recommend_contrasting_color existing
                 = Ok (if PrimFloat.ltb (relative_luminance d) 254.5
                       then ("#ffffff", white_reason)
                       else ("#000000", black_reason))).
  { destruct d as [[r g] b].
    pose proof Hrgb as (Hr & Hg & Hb)%hex_to_rgb_range.
    pose proof (luminance_decided r g b Hr Hg Hb) as Hdec.
    unfold recommend_contrasting_color. rewrite Hd. cbn [bind].
    destruct (rainbow_pass_Ok (r, g, b)) as (st & -> & _). cbn [bind].
    unfold white_black_check. unfold Checks.decided in Hdec.
    set (l := relative_luminance (r, g, b)) in *.
    destruct (PrimFloat.ltb l 254.5).
    - rewrite Hdec. now rewrite conclude_select.
    - apply andb_true_iff in Hdec as [Hw%negb_true_iff Hk].
      rewrite Hw, Hk. now rewrite conclude_select. }
  assert (Hbelow : PrimFloat.ltb (relative_luminance d) 254.5 = true
                   <-> Exists (fun color => exists v, hex_to_rgb color = Ok v
                         /\ PrimFloat.ltb (relative_luminance v) 254.5 = true) existing).
  { split.
    - intros Hlt. apply Exists_exists. exists cd. eauto.
    - intros (color & Hin & v & Hv & Hlt)%Exists_exists.
      destruct (float_ltb_between _ (relative_luminance d) _ (luminance_num _ _ Hrgb) Hlt)
        as [Hvd|Hd']; [|exact Hd'].
      rewrite (Hleast _ _ Hin Hv) in Hvd. discriminate. }
  split; [exists d; eauto 6|].
  split; [|split; [|repeat constructor; discriminate]].
  - rewrite <- Hbelow, Hrec.
    destruct (PrimFloat.ltb (relative_luminance d) 254.5); split; congruence.
  - rewrite Hrec. split.
    + intros Hb. apply Forall_forall. intros color Hin v Hv.
      destruct (PrimFloat.ltb (relative_luminance v) 254.5) eqn:Hlt; [|reflexivity].
      assert (Hex : PrimFloat.ltb (relative_luminance d) 254.5 = true).
      { apply Hbelow, Exists_exists. exists color. eauto. }
      rewrite Hex in Hb. discriminate.
    + intros Hnone. rewrite Forall_forall in Hnone.
      now rewrite (Hnone _ Hcd _ Hrgb).
Qed.

(** The theorem at the palette ["#ffffff"; "#336699"], whose darkest colour
    is its second. *)
Lemma recommends_white_or_black_witness :
  ["#ffffff"; "#336699"] <> []
  /\ Forall (fun color => exists v, hex_to_rgb color = Ok v) ["#ffffff"; "#336699"]
  /\ (exists d,
        darkest ["#ffffff"; "#336699"] = Ok d
        /\ (exists color, color ∈ ["#ffffff"; "#336699"] /\ hex_to_rgb color = Ok d)
        /\ (forall color v, color ∈ ["#ffffff"; "#336699"] -> hex_to_rgb color = Ok v ->
              PrimFloat.ltb (relative_luminance v) (relative_luminance d) = false)
        /\ recommend_contrasting_color ["#ffffff"; "#336699"]
           = Ok (if PrimFloat.ltb (relative_luminance d) 254.5
                 then ("#ffffff", white_reason)
                 else ("#000000", black_reason)))
  /\ (recommend_contrasting_color ["#ffffff"; "#336699"] = Ok ("#ffffff", white_reason)
      <-> Exists (fun color => exists v, hex_to_rgb color = Ok v
                    /\ PrimFloat.ltb (relative_luminance v) 254.5 = true)
            ["#ffffff"; "#336699"])
  /\ (recommend_contrasting_color ["#ffffff"; "#336699"] = Ok ("#000000", black_reason)
      <-> Forall (fun color => forall v, hex_to_rgb color = Ok v ->
                    PrimFloat.ltb (relative_luminance v) 254.5 = false)
            ["#ffffff"; "#336699"])
  /\ Forall (fun code => code <> "#ffffff" /\ code <> "#000000")
       (default_color :: map snd rainbow_colors).
Proof.
  assert (Hall : Forall (fun color => exists v, hex_to_rgb color = Ok v)
                   ["#ffffff"; "#336699"])
    by (repeat constructor; eexists; vm_compute; reflexivity).
  split; [discriminate|]. split; [exact Hall|].
  apply (recommends_white_or_black ["#ffffff"; "#336699"]); [discriminate|exact Hall].
Defined.
